(** * patchimport: a shallow embedding of [src/patchimport.py]

    The development follows the Python module top to bottom:
    - Python strings, [str.splitlines], [str.join], list slices, list
      indexing and [range], as the patcher uses them;
    - a state-and-exception monad for the effects of the code ([print],
      the module registry [sys.modules], freshly created module objects);
    - [modify_and_import], [parse_args], the nested function [patcher] and
      the cell magic [patchimport];
    - the properties of the design document, proved or refuted on these
      definitions. *)

From Stdlib Require Import ZArith NArith Ascii String DecimalString.
From stdpp Require Import base tactics option list gmap fin_maps countable.

#[local] Open Scope Z_scope.

(** ** Python strings *)

(** A Python [str] is a sequence of Unicode code points. *)
Abbreviation pystr := (list N).

(** A literal of the source, written as a Rocq string of ASCII characters. *)
Definition lit (s : string) : pystr :=
  (fun a => N_of_ascii a) <$> list_ascii_of_string s.

(** ["\n"] *)
Definition nl : N := 10%N.

(** The line boundaries of [str.splitlines]: LF, VT, FF, CR, FS, GS, RS,
    NEL, LS and PS. The pair CR LF counts as one boundary. *)
Definition is_linebreak (c : N) : bool :=
  bool_decide (c ∈ [10; 11; 12; 13; 28; 29; 30; 133; 8232; 8233]%N).

(** [splitlines_from cur s]: the lines of [s], where [cur] holds, reversed,
    the characters of the line being read. A trailing line boundary opens
    no further line. *)
Fixpoint splitlines_from (cur s : pystr) : list pystr :=
  match s with
  | [] => match cur with [] => [] | _ => [rev cur] end
  | c :: rest =>
      if is_linebreak c then
        match rest with
        | d :: rest' =>
            if ((c =? 13) && (d =? 10))%N
            then rev cur :: splitlines_from [] rest'
            else rev cur :: splitlines_from [] rest
        | [] => [rev cur]
        end
      else splitlines_from (c :: cur) rest
  end.

(** [s.splitlines()] *)
Definition splitlines (s : pystr) : list pystr := splitlines_from [] s.

(** [sep.join(parts)] *)
Fixpoint join (sep : pystr) (parts : list pystr) : pystr :=
  match parts with
  | [] => []
  | [p] => p
  | p :: ps => p ++ sep ++ join sep ps
  end.

(** [str(z)] for an [int]. *)
Definition str_of_int (z : Z) : pystr :=
  lit (NilZero.string_of_int (Z.to_int z)).

(** The format specification [{z:3}]: right-aligned in a field of width 3,
    wider when the number needs it. *)
Definition format_width3 (z : Z) : pystr :=
  let digits := str_of_int z in
  replicate (3 - length digits)%nat 32%N ++ digits.

(** ** Python exceptions and results *)

Inductive exn : Type :=
  | AttributeError
  | IndexError
  | TypeError
  | ValueError
  | ImportError
  | SyntaxError
  | SystemExit
  | OtherError (tag : nat).

Inductive result (A : Type) : Type :=
  | Return (a : A)
  | Raise (e : exn).
Arguments Return {A} a.
Arguments Raise {A} e.

(** ** Python lists: slices, indexing, [range] *)

(** The bound [k] of a slice of a list of length [n], with Python's reading
    of negative bounds; bounds past the end are clipped by [take]/[drop]. *)
Definition slice_bound (n : nat) (k : Z) : nat :=
  if k <? 0 then Z.to_nat (Z.max 0 (Z.of_nat n + k)) else Z.to_nat k.

(** [l[:k]] *)
Definition slice_to {A} (l : list A) (k : Z) : list A :=
  take (slice_bound (length l) k) l.

(** [l[k:]] *)
Definition slice_from {A} (l : list A) (k : Z) : list A :=
  drop (slice_bound (length l) k) l.

(** [l[i]]: negative indices count from the end; out of range raises
    [IndexError]. *)
Definition getitem {A} (l : list A) (i : Z) : result A :=
  let j := if i <? 0 then i + Z.of_nat (length l) else i in
  if j <? 0 then Raise IndexError
  else match l !! Z.to_nat j with
       | Some x => Return x
       | None => Raise IndexError
       end.

(** [list(range(a, b))] *)
Definition range (a b : Z) : list Z :=
  (fun k => a + Z.of_nat k) <$> seq 0 (Z.to_nat (b - a)).

(** ** The monad of the code: state and exceptions *)

(** A computation over a state [S] returns a value or raises, and leaves a
    state behind in both cases. *)
Definition Py (S A : Type) : Type := S -> result A * S.

Definition ret {S A} (a : A) : Py S A := fun s => (Return a, s).

Definition raise {S A} (e : exn) : Py S A := fun s => (Raise e, s).

Definition bind {S A B} (m : Py S A) (k : A -> Py S B) : Py S B :=
  fun s => match m s with
           | (Return a, s') => k a s'
           | (Raise e, s') => (Raise e, s')
           end.

Declare Scope py_scope.
Delimit Scope py_scope with py.
Notation "x <- m ;; k" := (bind m (fun x => k))
  (at level 100, m at next level, right associativity) : py_scope.
Notation "m ;;; k" := (bind m (fun _ => k))
  (at level 100, right associativity) : py_scope.
#[local] Open Scope py_scope.

(** A computation that cannot touch the state. *)
Definition pure_result {S A} (r : result A) : Py S A := fun s => (r, s).

(** A list comprehension [[f(i) for i in l]] whose body may raise. *)
Fixpoint comprehension {S A B} (f : A -> Py S B) (l : list A) : Py S (list B) :=
  match l with
  | [] => ret []
  | x :: xs => y <- f x ;; ys <- comprehension f xs ;; ret (y :: ys)
  end.

(** Standard output: the texts given to [print], oldest first. *)
Abbreviation stdout_t := (list pystr).

(** [print(s)] *)
Definition print (s : pystr) : Py stdout_t unit :=
  fun out => (Return tt, out ++ [s]).


(** A computation on standard output alone, run inside a larger state that
    holds standard output behind [get] and [set]. *)
Definition lift_out {S A} (get : S -> stdout_t) (set : stdout_t -> S -> S)
    (m : Py stdout_t A) : Py S A :=
  fun s => let '(r, out) := m (get s) in (r, set out s).

(** ** The patcher (the nested function of [patchimport], lines 101-133) *)

(** [source.splitlines()] where [source] is what the loader gave: a [str],
    or [None], which has no such method. *)
Definition method_splitlines (source : option pystr) : result (list pystr) :=
  match source with
  | Some s => Return (splitlines s)
  | None => Raise AttributeError
  end.

(** One entry of the preview, [f"{i+1:3}<mark>{l[i]}"]. *)
Definition preview_entry {S} (mark : pystr) (l : list pystr) (i : Z) : Py S pystr :=
  x <- pure_result (getitem l i) ;;
  ret (format_width3 (i + 1) ++ mark ++ x).

(** [new_lines] of line 104. *)
Definition spliced_lines (lines patch_lines : list pystr) (start_line end_line : Z)
    : list pystr :=
  slice_to lines start_line ++ patch_lines ++ slice_from lines end_line.

(** [preview_lines] of lines 107-126. *)
Definition preview {S} (lines patch_lines : list pystr) (start_line end_line : Z)
    : Py S (list pystr) :=
  let new_lines := spliced_lines lines patch_lines start_line end_line in
  let modified_end := start_line + Z.of_nat (length patch_lines) in
  before <- comprehension (preview_entry (lit " ") new_lines)
              (range (start_line - 3) start_line) ;;
  added <- comprehension (preview_entry (lit "+") new_lines)
              (range start_line modified_end) ;;
  rest <- (if end_line <=? modified_end
           then comprehension (preview_entry (lit " ") new_lines)
                  (range modified_end (modified_end + 3))
           else
             removed <- comprehension (preview_entry (lit "-") lines)
                          (range modified_end end_line) ;;
             after <- comprehension (preview_entry (lit " ") lines)
                          (range end_line (end_line + 3)) ;;
             ret (removed ++ after)) ;;
  ret (before ++ added ++ rest).

(** The reminder of line 128. *)
Definition reminder (module : pystr) : pystr :=
  lit "REMEMBER TO DO `import " ++ module ++ lit "` OR `from " ++ module
    ++ lit " import ...` AFTER THIS MAGIC CALL!".

(** The headline of line 130. *)
Definition headline (start_line end_line : Z) : pystr :=
  lit "Patch applied from line " ++ str_of_int (start_line + 1) ++ lit " to "
    ++ str_of_int (end_line + 1) ++ lit ":" ++ [nl].

(** [patcher(source, start_line, end_line, patch)]; [module] is the variable
    of the enclosing [patchimport] that the reminder mentions. *)
Definition patcher (module : pystr) (source : option pystr)
    (start_line end_line : Z) (patch : pystr) : Py stdout_t pystr :=
  lines <- pure_result (method_splitlines source) ;;
  let patch_lines := splitlines patch in
  let new_lines := spliced_lines lines patch_lines start_line end_line in
  let new_src := join [nl] new_lines in
  preview_lines <- preview lines patch_lines start_line end_line ;;
  print (reminder module) ;;;
  print (headline start_line end_line) ;;;
  print (join [nl] preview_lines) ;;;
  ret new_src.

(** ** The import system and the interpreter *)

(** A module's import specification: its name and the path of its file. *)
Record ModuleSpec : Type := { spec_name : pystr; spec_origin : pystr }.

(** The namespace [argparse] fills for the parser of [parse_args]. *)
Record Namespace : Type :=
  { ns_module : pystr; ns_start_line : Z; ns_end_line : option Z }.

(** Module objects live in a heap and are referred to by location. *)
Abbreviation loc := nat.

(** What the code takes from Python and its standard library. The file
    system does not change between calls, so the finders and the loaders
    are functions.

    Running a module's top-level code is taken to act on the namespace it
    is given and on nothing else, and to leave the module's [__spec__] as
    [module_from_spec] set it. Importing a package is an effect on the
    whole state; it is the interface [ImportSystem] below. *)
Class Runtime : Type := {
  (** values of module attributes, and code objects *)
  value : Type;
  code : Type;
  (** [importlib.util.resolve_name] on a name that starts with a dot *)
  resolve_relative : pystr -> option pystr -> result pystr;
  (** the finders of [sys.meta_path], for a name that is not registered,
      asked with the [__path__] of its parent package once that is
      imported; a parent without [__path__] gives an error *)
  find_unregistered : pystr -> result (option ModuleSpec);
  (** [spec.loader.get_source(name)]: the text of the file, or [None] *)
  loader_get_source : ModuleSpec -> pystr -> result (option pystr);
  (** [compile(source, filename, "exec")] on a [str] *)
  py_compile : pystr -> pystr -> result code;
  (** running a code object in a namespace: the namespace it leaves, and
      the exception it raised, if any *)
  py_exec : code -> gmap pystr value -> gmap pystr value * option exn;
  (** the attributes of a module fresh from [module_from_spec] *)
  module_init : ModuleSpec -> gmap pystr value;
  (** [shlex.split] *)
  shlex_split : pystr -> result (list pystr);
  (** the namespace and the left-over arguments that [argparse] computes
      for the three positionals of [parse_args]; it prints and raises
      [SystemExit] on [-h] and on a malformed command line *)
  argparse_positionals : list pystr -> Py stdout_t (Namespace * list pystr)
}.

Section WithRuntime.
Context `{RT : Runtime}.

(** A module object: its [__spec__] and its [__dict__]. *)
Record module_obj : Type :=
  { mod_spec : option ModuleSpec; mod_dict : gmap pystr value }.

(** The state of the process: the registry [sys.modules], the module
    objects, and standard output. *)
Record world : Type :=
  { sys_modules : gmap pystr loc;
    heap : gmap loc module_obj;
    stdout : stdout_t }.

Definition set_sys_modules (r : gmap pystr loc) (w : world) : world :=
  {| sys_modules := r; heap := heap w; stdout := stdout w |}.

Definition set_heap (h : gmap loc module_obj) (w : world) : world :=
  {| sys_modules := sys_modules w; heap := h; stdout := stdout w |}.

Definition set_stdout (out : stdout_t) (w : world) : world :=
  {| sys_modules := sys_modules w; heap := heap w; stdout := out |}.

(** [name.startswith('.')] *)
Definition starts_with_dot (name : pystr) : bool :=
  match name with
  | c :: _ => (c =? 46)%N
  | [] => false
  end.

(** [fullname.rpartition('.')[0]]: what stands before the last dot, the
    empty string when there is no dot. *)
Fixpoint parent_name (fullname : pystr) : pystr :=
  match fullname with
  | [] => []
  | c :: rest =>
      if existsb (fun d => (d =? 46)%N) rest then c :: parent_name rest else []
  end.

(** The import machinery behind [__import__(name, fromlist=['__path__'])],
    as [find_spec] calls it on the parent package of a name that is not
    registered. Importing runs the package's code, registers the package
    and whatever its [__init__] imports, creates their module objects and
    may print. It is taken to be well behaved in these respects:
    - it changes no module object that exists ([import_frame], as for all
      module code);
    - a name that is registered imports at once and changes nothing
      ([import_registered]), and a successful import leaves its name
      registered ([import_registers]);
    - a module that it registers carries the specification that the
      finders give for its name ([import_spec]);
    - an import that fails leaves none of the package's submodules newly
      registered and fails alike when tried again ([import_failure]); a
      package whose [__init__] raises after importing its own submodules
      is outside the model. *)
Class ImportSystem : Type := {
  import_module : pystr -> Py world unit;
  import_frame : forall n w r w' l m,
    import_module n w = (r, w') ->
    heap w !! l = Some m -> heap w' !! l = Some m;
  import_registered : forall n w l,
    sys_modules w !! n = Some l -> import_module n w = (Return tt, w);
  import_registers : forall n w w',
    import_module n w = (Return tt, w') -> is_Some (sys_modules w' !! n);
  import_spec : forall n w r w' k l,
    import_module n w = (r, w') ->
    sys_modules w !! k = None -> sys_modules w' !! k = Some l ->
    exists m sp,
      heap w' !! l = Some m /\ mod_spec m = Some sp
      /\ find_unregistered k = Return (Some sp);
  import_failure : forall n w e w',
    import_module n w = (Raise e, w') ->
    (import_module n w').1 = Raise e
    /\ forall k, parent_name k = n ->
         sys_modules w !! k = None -> sys_modules w' !! k = None
}.

Context `{IS : ImportSystem}.

(** [importlib.util.find_spec(name, package)]: a registered module answers
    with its own [__spec__]; for a name that is not registered the parent
    package, if the name has one, is imported first, and then the finders
    are asked. *)
Definition find_spec (name : pystr) (package : option pystr)
    : Py world (option ModuleSpec) :=
  fullname <- pure_result (if starts_with_dot name
                           then resolve_relative name package
                           else Return name) ;;
  fun w =>
    match sys_modules w !! fullname with
    | None =>
        match parent_name fullname with
        | [] => (find_unregistered fullname, w)
        | _ :: _ =>
            (import_module (parent_name fullname) ;;;
             pure_result (find_unregistered fullname)) w
        end
    | Some module =>
        match heap w !! module ≫= mod_spec with
        | Some spec => (Return (Some spec), w)
        | None => (Raise ValueError, w)
        end
    end.

(** [spec.loader.get_source(module_name)]; [None] has no [loader]. *)
Definition get_source (spec : option ModuleSpec) (module_name : pystr)
    : Py world (option pystr) :=
  match spec with
  | Some sp => pure_result (loader_get_source sp module_name)
  | None => raise AttributeError
  end.

(** [importlib.util.module_from_spec(spec)]: a new module object. *)
Definition module_from_spec (spec : option ModuleSpec) : Py world loc :=
  match spec with
  | Some sp =>
      fun w =>
        let module := fresh (dom (heap w)) in
        (Return module,
         set_heap (<[module := {| mod_spec := Some sp;
                                  mod_dict := module_init sp |}]> (heap w)) w)
  | None => raise AttributeError
  end.

(** [module.__spec__.origin] *)
Definition spec_origin_of (module : loc) : Py world pystr :=
  fun w =>
    match heap w !! module ≫= mod_spec with
    | Some sp => (Return (spec_origin sp), w)
    | None => (Raise AttributeError, w)
    end.

(** [compile(source, filename, "exec")]; [None] is not source text. *)
Definition compile_source (source : option pystr) (filename : pystr)
    : result code :=
  match source with
  | Some s => py_compile s filename
  | None => Raise TypeError
  end.

(** [exec(codeobj, module.__dict__)]: the code runs in the module's own
    namespace, which keeps what the code wrote to it also when it raises. *)
Definition exec (codeobj : code) (module : loc) : Py world unit :=
  fun w =>
    match heap w !! module with
    | Some m =>
        let '(d, err) := py_exec codeobj (mod_dict m) in
        (match err with Some e => Raise e | None => Return tt end,
         set_heap (<[module := {| mod_spec := mod_spec m; mod_dict := d |}]>
                     (heap w)) w)
    | None => (Raise AttributeError, w)
    end.

(** [getattr(module, attribute)], without a default. *)
Definition module_attr (w : world) (module : loc) (attribute : pystr)
    : option value :=
  heap w !! module ≫= fun m => mod_dict m !! attribute.

(** [sys.modules[module_name] = module] *)
Definition register (module_name : pystr) (module : loc) : Py world unit :=
  fun w =>
    (Return tt, set_sys_modules (<[module_name := module]> (sys_modules w)) w).

(** [modify_and_import(module_name, package, modification_func)],
    lines 12-20. The modification function is given the source and may
    print. *)
Definition modify_and_import (module_name : pystr) (package : option pystr)
    (modification_func : option pystr -> Py stdout_t (option pystr))
    : Py world loc :=
  spec <- find_spec module_name package ;;
  source <- get_source spec module_name ;;
  new_source <- lift_out stdout set_stdout (modification_func source) ;;
  module <- module_from_spec spec ;;
  origin <- spec_origin_of module ;;
  codeobj <- pure_result (compile_source new_source origin) ;;
  exec codeobj module ;;;
  register module_name module ;;;
  ret module.

(** ** Parsing the header of the magic (lines 31-60) *)

Record PatchArgs : Type :=
  { module : pystr; start_line : Z; end_line : option Z }.

(** The objects [parse_args] handles: the namespace of [argparse], a list of
    strings, a two-item tuple. *)
Inductive pyobj : Type :=
  | ObjNamespace (ns : Namespace)
  | ObjList (items : list pystr)
  | ObjPair (first second : pyobj).

(** [parser.parse_known_args(argv)] returns a pair: the populated
    namespace and the arguments it did not consume. *)
Definition parse_known_args (argv : list pystr) : Py stdout_t pyobj :=
  r <- argparse_positionals argv ;;
  ret (ObjPair (ObjNamespace r.1) (ObjList r.2)).

(** Attribute access [o.<attribute>] for the three attributes read at
    lines 58-60: a namespace has them, a list or a tuple does not. *)
Definition getattr {A} (field : Namespace -> A) (o : pyobj) : result A :=
  match o with
  | ObjNamespace ns => Return (field ns)
  | ObjList _ | ObjPair _ _ => Raise AttributeError
  end.

(** [parse_args(line)] *)
Definition parse_args (line : pystr) : Py stdout_t PatchArgs :=
  argv <- pure_result (shlex_split line) ;;
  args <- parse_known_args argv ;;
  m <- pure_result (getattr ns_module args) ;;
  s <- pure_result (getattr ns_start_line args) ;;
  e <- pure_result (getattr ns_end_line args) ;;
  ret {| module := m; start_line := s; end_line := e |}.

(** ** The cell magic (lines 63-139) *)

(** [print] from code that runs in the whole state. *)
Definition wprint (s : pystr) : Py world unit :=
  lift_out stdout set_stdout (print s).

(** [partial(patcher, start_line=start_line - 1, end_line=end_line - 1,
    patch=cell)], the modification function of line 138. *)
Definition patcher_partial (module : pystr) (start_line end_line : Z)
    (cell : pystr) (source : option pystr) : Py stdout_t (option pystr) :=
  new_src <- patcher module source (start_line - 1) (end_line - 1) cell ;;
  ret (Some new_src).

(** Lines 88-139: what [patchimport] does with the parsed arguments. *)
Definition patchimport_checked (args : PatchArgs) (cell : pystr)
    : Py world unit :=
  if start_line args <? 1 then
    wprint (lit "Error: start_line must be at least 1")
  else
    match end_line args with
    | Some end_line =>
        if end_line <=? start_line args then
          wprint (lit "Error: end_line must be greater than start_line")
        else
          modify_and_import (module args) None
            (patcher_partial (module args) (start_line args) end_line cell) ;;;
          ret tt
    | None =>
        modify_and_import (module args) None
          (patcher_partial (module args) (start_line args) (start_line args)
             cell) ;;;
        ret tt
    end.

(** [patchimport(line, cell)]: only [SystemExit] from the parser is caught
    (line 85). *)
Definition patchimport (line cell : pystr) : Py world unit :=
  fun w =>
    match lift_out stdout set_stdout (parse_args line) w with
    | (Return args, w') => patchimport_checked args cell w'
    | (Raise SystemExit, w') => (Return tt, w')
    | (Raise e, w') => (Raise e, w')
    end.

(** Modelled from the spec: [unpatchimport] is called by the tests and is
    not in the source. The design document gives it as the install
    operation with the identity as source transform, on the module name
    alone. *)
Definition unpatchimport (module_name : pystr) : Py world unit :=
  modify_and_import module_name None (fun source => ret source) ;;;
  ret tt.

End WithRuntime.

(** * Vocabulary of the properties *)

(** The indices at which [l[i]] is defined. *)
Definition valid_index {A} (l : list A) (i : Z) : Prop :=
  - Z.of_nat (length l) <= i < Z.of_nat (length l).

(** Every index that lines 108-126 read is in range. *)
Definition preview_ok (lines patch_lines : list pystr)
    (start_line end_line : Z) : Prop :=
  let new_lines := spliced_lines lines patch_lines start_line end_line in
  let modified_end := start_line + Z.of_nat (length patch_lines) in
  Forall (valid_index new_lines) (range (start_line - 3) start_line)
  /\ Forall (valid_index new_lines) (range start_line modified_end)
  /\ if end_line <=? modified_end
     then Forall (valid_index new_lines) (range modified_end (modified_end + 3))
     else Forall (valid_index lines) (range modified_end end_line)
          /\ Forall (valid_index lines) (range end_line (end_line + 3)).

(** No character of the lines that [splitlines] returns is a line
    boundary. *)
Definition unbroken (line : pystr) : Prop :=
  Forall (fun c => is_linebreak c = false) line.

(** Lines 13-14 on their own: the specification and the source text that a
    call fetches in the state [w]. *)
Definition fetch `{IS : ImportSystem} (module_name : pystr) (package : option pystr) (w : world)
    : result (ModuleSpec * option pystr) :=
  match (find_spec module_name package w).1 with
  | Return (Some sp) =>
      match loader_get_source sp module_name with
      | Return source => Return (sp, source)
      | Raise e => Raise e
      end
  | Return None => Raise AttributeError
  | Raise e => Raise e
  end.

(** [y] is the preview entry for index [i] of [l]: the 1-based number in a
    field of width 3, the mark, and the line [l[i]]. *)
Definition entry_of (mark : pystr) (l : list pystr) (i : Z) (y : pystr) : Prop :=
  exists x, getitem l i = Return x /\ y = format_width3 (i + 1) ++ mark ++ x.

(** ** Two import systems *)

(** Without packages: a registered name imports at once, any other import
    fails and changes nothing. *)
Definition flat_import `{RT : Runtime} (n : pystr) : Py world unit :=
  fun w =>
    match sys_modules w !! n with
    | Some _ => (Return tt, w)
    | None => (Raise ImportError, w)
    end.

Definition flat_imports `{RT : Runtime} : ImportSystem.
Proof.
  refine {| import_module := flat_import |}; unfold flat_import.
  - intros n w r w' l m H Hl.
    destruct (sys_modules w !! n); by injection H as _ <-.
  - intros n w l H. by rewrite H.
  - intros n w w' H. destruct (sys_modules w !! n) eqn:E; [| done].
    injection H as <-. rewrite E. eauto.
  - intros n w r w' k l H Hk Hk'.
    destruct (sys_modules w !! n); injection H as _ <-; congruence.
  - intros n w e w' H. destruct (sys_modules w !! n) eqn:E; [done |].
    injection H as <- <-. rewrite E. by split.
Defined.

(** Importing one module without running any code: if the name is not
    registered, a new module object with the given specification is
    created and registered. *)
Definition load `{RT : Runtime} (name : pystr) (sp : ModuleSpec) (w : world)
    : world :=
  match sys_modules w !! name with
  | Some _ => w
  | None =>
      let l := fresh (dom (heap w)) in
      {| sys_modules := <[name := l]> (sys_modules w);
         heap := <[l := {| mod_spec := Some sp; mod_dict := module_init sp |}]>
                   (heap w);
         stdout := stdout w |}
  end.

(** ** A small runtime, to run the definitions on concrete inputs *)

Module Demo.

(** A toy module language: each line is [NAME=TEXT] and binds [NAME] to
    [TEXT]; a line without [=] does not compile; the text [!] raises. *)
Definition assignment (line : pystr) : option (pystr * pystr) :=
  match list_find (fun c => c = 61%N) line with
  | Some (i, _) => Some (take i line, drop (S i) line)
  | None => None
  end.

Definition demo_compile (source filename : pystr)
    : result (list (pystr * pystr)) :=
  match mapM assignment (splitlines source) with
  | Some c => Return c
  | None => Raise SyntaxError
  end.

Fixpoint demo_exec (c : list (pystr * pystr)) (ns : gmap pystr pystr)
    : gmap pystr pystr * option exn :=
  match c with
  | [] => (ns, None)
  | (k, v) :: c' =>
      if decide (v = lit "!") then (ns, Some (OtherError 0))
      else demo_exec c' (<[k := v]> ns)
  end.

(** Words separated by spaces, for headers without quotes or escapes. *)
Fixpoint words_from (cur s : pystr) : list pystr :=
  match s with
  | [] => match cur with [] => [] | _ => [rev cur] end
  | c :: rest =>
      if (c =? 32)%N
      then match cur with
           | [] => words_from [] rest
           | _ => rev cur :: words_from [] rest
           end
      else words_from (c :: cur) rest
  end.

(** A decimal numeral. *)
Definition demo_int (s : pystr) : option Z :=
  match s with
  | [] => None
  | _ =>
      foldl (fun acc c =>
               match acc with
               | Some z =>
                   if ((48 <=? c) && (c <=? 57))%N
                   then Some (10 * z + Z.of_N (c - 48))
                   else None
               | None => None
               end) (Some 0) s
  end.

(** The three positionals of the parser of [parse_args]. *)
Definition demo_argparse (argv : list pystr)
    : Py stdout_t (Namespace * list pystr) :=
  match argv with
  | m :: s :: rest =>
      match demo_int s, rest with
      | Some sv, [] =>
          ret ({| ns_module := m; ns_start_line := sv; ns_end_line := None |},
               [])
      | Some sv, e :: extras =>
          match demo_int e with
          | Some ev =>
              ret ({| ns_module := m; ns_start_line := sv;
                      ns_end_line := Some ev |}, extras)
          | None => raise SystemExit
          end
      | None, _ => raise SystemExit
      end
  | _ => raise SystemExit
  end.

(** Two files: [letters.py] holds the four lines [a], [b], [c], [d];
    [settings.py] holds six assignments. *)
Definition letters_source : pystr :=
  join [nl] [lit "a"; lit "b"; lit "c"; lit "d"].

Definition settings_source : pystr :=
  join [nl] [lit "CONSTANT=original"; lit "A=1"; lit "B=2"; lit "C=3";
             lit "D=4"; lit "E=5"].

(** The source and the patch of [test_patcher_logic]. *)
Definition test_source : pystr :=
  join [nl] [lit "line1"; lit "line2"; lit "line3"; lit "line4"].

Definition test_patch : pystr :=
  join [nl] [lit "inserted_line_A"; lit "inserted_line_B"].

Definition demo_files : list (pystr * pystr) :=
  [(lit "letters", letters_source); (lit "settings", settings_source)].

Definition demo_find (name : pystr) : result (option ModuleSpec) :=
  match list_find (fun f => f.1 = name) demo_files with
  | Some _ =>
      Return (Some {| spec_name := name;
                      spec_origin := lit "/lib/" ++ name ++ lit ".py" |})
  | None => Return None
  end.

Definition demo_get_source (spec : ModuleSpec) (name : pystr)
    : result (option pystr) :=
  match list_find (fun f => f.1 = name) demo_files with
  | Some (_, f) => Return (Some f.2)
  | None => Raise ImportError
  end.

Definition demo_runtime : Runtime := {|
  value := pystr;
  code := list (pystr * pystr);
  resolve_relative := fun _ _ => Raise ImportError;
  find_unregistered := demo_find;
  loader_get_source := demo_get_source;
  py_compile := demo_compile;
  py_exec := demo_exec;
  module_init := fun sp => {[ lit "__name__" := spec_name sp ]};
  shlex_split := fun line => Return (words_from [] line);
  argparse_positionals := demo_argparse
|}.

Definition demo_imports : @ImportSystem demo_runtime := flat_imports.

(** A process that has imported nothing and printed nothing. *)
Definition start : @world demo_runtime :=
  {| sys_modules := ∅; heap := ∅; stdout := [] |}.

(** The same process after [import settings]. *)
Definition imported : @world demo_runtime :=
  (modify_and_import (IS := demo_imports) (lit "settings") None
     (fun source => ret source) start).2.

(** Two patches of [settings], as [test_patchimport_manytimes] applies
    them: replace line 1, and insert before line 3. *)
Definition replace_constant : option pystr -> Py stdout_t (option pystr) :=
  patcher_partial (lit "settings") 1 2 (lit "CONSTANT=replaced").

Definition add_variable : option pystr -> Py stdout_t (option pystr) :=
  patcher_partial (lit "settings") 3 3 (lit "NEW_VARIABLE=added").



(** A source with mixed line endings: [a\r\nb\nc\rd\ne\n]. *)
Definition mixed_source : pystr :=
  lit "a" ++ [13; 10]%N ++ lit "b" ++ [10]%N ++ lit "c" ++ [13]%N
    ++ lit "d" ++ [10]%N ++ lit "e" ++ [10]%N.

(** The same runtime with loaders that have no source text, as for a
    module that is only available compiled. *)
Definition demo_runtime_no_source : Runtime := {|
  value := pystr;
  code := list (pystr * pystr);
  resolve_relative := fun _ _ => Raise ImportError;
  find_unregistered := demo_find;
  loader_get_source := fun _ _ => Return None;
  py_compile := demo_compile;
  py_exec := demo_exec;
  module_init := fun sp => {[ lit "__name__" := spec_name sp ]};
  shlex_split := fun line => Return (words_from [] line);
  argparse_positionals := demo_argparse
|}.

Definition demo_imports_no_source : @ImportSystem demo_runtime_no_source :=
  flat_imports.

Definition start_no_source : @world demo_runtime_no_source :=
  {| sys_modules := ∅; heap := ∅; stdout := [] |}.

(** Parsed arguments: replace line 2 of [settings]; replace lines 2-3 of
    [letters]. *)
Definition settings_args : PatchArgs :=
  {| module := lit "settings"; start_line := 2; end_line := Some 3 |}.

Definition letters_args : PatchArgs :=
  {| module := lit "letters"; start_line := 2; end_line := Some 4 |}.

(** [settings] with its second line replaced by [A=patched]. *)
Definition settings_patched : pystr :=
  join [nl] [lit "CONSTANT=original"; lit "A=patched"; lit "B=2"; lit "C=3";
             lit "D=4"; lit "E=5"].

(** A package [pkg] whose [__init__] imports its submodule [pkg.mod]. *)
Definition pkg_spec : ModuleSpec :=
  {| spec_name := lit "pkg"; spec_origin := lit "/lib/pkg/__init__.py" |}.

Definition pkg_mod_spec : ModuleSpec :=
  {| spec_name := lit "pkg.mod"; spec_origin := lit "/lib/pkg/mod.py" |}.

Definition pkg_find (name : pystr) : result (option ModuleSpec) :=
  if decide (name = lit "pkg") then Return (Some pkg_spec)
  else if decide (name = lit "pkg.mod") then Return (Some pkg_mod_spec)
  else Return None.

Definition pkg_runtime : Runtime := {|
  value := pystr;
  code := list (pystr * pystr);
  resolve_relative := fun _ _ => Raise ImportError;
  find_unregistered := pkg_find;
  loader_get_source := fun _ _ => Return (Some settings_source);
  py_compile := demo_compile;
  py_exec := demo_exec;
  module_init := fun sp => {[ lit "__name__" := spec_name sp ]};
  shlex_split := fun line => Return (words_from [] line);
  argparse_positionals := demo_argparse
|}.

(** [import pkg]: registers [pkg], then [pkg.mod]. *)
Definition pkg_import (n : pystr) : Py (@world pkg_runtime) unit :=
  fun w =>
    match sys_modules w !! n with
    | Some _ => (Return tt, w)
    | None =>
        if decide (n = lit "pkg")
        then (Return tt,
              load (lit "pkg.mod") pkg_mod_spec (load (lit "pkg") pkg_spec w))
        else (Raise ImportError, w)
    end.

Definition pkg_imports : @ImportSystem pkg_runtime.
Proof.
  assert (F1 : forall k sp (w : @world pkg_runtime) l m,
             heap w !! l = Some m -> heap (load k sp w) !! l = Some m).
  { intros k sp w l m Hl. unfold load. destruct (sys_modules w !! k); [done |].
    cbn. rewrite lookup_insert_ne; [done |]. intros <-.
    apply (is_fresh (dom (heap w))). apply elem_of_dom. by exists m. }
  assert (F2 : forall k sp (w : @world pkg_runtime) k' l,
             sys_modules w !! k' = Some l ->
             sys_modules (load k sp w) !! k' = Some l).
  { intros k sp w k' l Hk'. unfold load.
    destruct (sys_modules w !! k) eqn:Hk; [done |].
    cbn. rewrite lookup_insert_ne; [done |]. congruence. }
  assert (F3 : forall k sp (w : @world pkg_runtime),
             is_Some (sys_modules (load k sp w) !! k)).
  { intros k sp w. unfold load.
    destruct (sys_modules w !! k) eqn:Hk; [by rewrite Hk |].
    cbn. rewrite lookup_insert_eq. eauto. }
  assert (F4 : forall k sp (w : @world pkg_runtime) k' l,
             sys_modules w !! k' = None ->
             sys_modules (load k sp w) !! k' = Some l ->
             k' = k
             /\ heap (load k sp w) !! l
                = Some {| mod_spec := Some sp; mod_dict := module_init sp |}).
  { intros k sp w k' l Hnone. unfold load.
    destruct (sys_modules w !! k) eqn:Hk; [congruence |].
    cbn. destruct (decide (k = k')) as [<- | Hne].
    - rewrite lookup_insert_eq. intros [= <-].
      by rewrite lookup_insert_eq.
    - rewrite lookup_insert_ne by done. congruence. }
  refine {| import_module := pkg_import |}; unfold pkg_import.
  - intros n w r w' l m H Hl. destruct (sys_modules w !! n).
    + by injection H as _ <-.
    + destruct (decide (n = lit "pkg")); injection H as _ <-; [| done].
      by apply F1, F1.
  - intros n w l H. by rewrite H.
  - intros n w w' H. destruct (sys_modules w !! n) eqn:E.
    + injection H as <-. rewrite E. eauto.
    + destruct (decide (n = lit "pkg")) as [-> |]; [| done].
      injection H as <-. destruct (F3 (lit "pkg") pkg_spec w) as [l Hl].
      exists l. by apply F2.
  - intros n w r w' k l H Hk Hk'. destruct (sys_modules w !! n).
    + injection H as _ <-. congruence.
    + destruct (decide (n = lit "pkg")); injection H as _ <-; [| congruence].
      destruct (sys_modules (load (lit "pkg") pkg_spec w) !! k) as [l1 |]
        eqn:Hk1.
      * assert (l = l1) as <-
          by (apply (F2 (lit "pkg.mod") pkg_mod_spec) in Hk1; congruence).
        destruct (F4 _ _ _ _ _ Hk Hk1) as [-> Hobj].
        eexists _, pkg_spec. split; [by apply F1 |]. by split.
      * destruct (F4 _ _ _ _ _ Hk1 Hk') as [-> Hobj].
        eexists _, pkg_mod_spec. split; [done |]. by split.
  - intros n w e w' H. destruct (sys_modules w !! n) eqn:E; [done |].
    destruct (decide (n = lit "pkg")) as [| Hne]; [done |].
    injection H as <- <-. rewrite E.
    destruct (decide (n = lit "pkg")); [done |]. by split.
Defined.

(** A process with that package on its path, nothing imported yet. *)
Definition pkg_start : @world pkg_runtime :=
  {| sys_modules := ∅; heap := ∅; stdout := [] |}.


End Demo.

(** * Properties *)

(** ** Lists *)

Lemma getitem_valid {A} (l : list A) (i : Z) :
  valid_index l i -> exists x, getitem l i = Return x.
Proof.
  unfold valid_index, getitem. intros Hi. cbv zeta.
  destruct (Z.ltb_spec i 0) as [Hneg | Hpos].
  - destruct (Z.ltb_spec (i + Z.of_nat (length l)) 0); [lia |].
    destruct (lookup_lt_is_Some_2 l (Z.to_nat (i + Z.of_nat (length l))))
      as [x Hx]; [lia |].
    rewrite Hx. by exists x.
  - destruct (Z.ltb_spec i 0); [lia |].
    destruct (lookup_lt_is_Some_2 l (Z.to_nat i)) as [x Hx]; [lia |].
    rewrite Hx. by exists x.
Qed.

Lemma getitem_invalid {A} (l : list A) (i : Z) :
  ~ valid_index l i -> getitem l i = Raise IndexError.
Proof.
  unfold valid_index, getitem. intros Hi. cbv zeta.
  destruct (Z.ltb_spec i 0) as [Hneg | Hpos].
  - destruct (Z.ltb_spec (i + Z.of_nat (length l)) 0); [done |].
    rewrite lookup_ge_None_2; [done | lia].
  - destruct (Z.ltb_spec i 0); [lia |].
    rewrite lookup_ge_None_2; [done | lia].
Qed.

Lemma valid_index_dec {A} (l : list A) (i : Z) :
  {valid_index l i} + {~ valid_index l i}.
Proof.
  unfold valid_index.
  destruct (decide (- Z.of_nat (length l) <= i));
    destruct (decide (i < Z.of_nat (length l))); (left; lia) || (right; lia).
Qed.

Lemma elem_of_range (a b i : Z) : i ∈ range a b <-> a <= i < b.
Proof.
  unfold range. rewrite list_elem_of_fmap. split.
  - intros (k & -> & Hk). apply elem_of_seq in Hk. lia.
  - intros Hi. exists (Z.to_nat (i - a)). split; [lia |].
    apply elem_of_seq. lia.
Qed.

Lemma slice_to_length {A} (l : list A) (k : Z) :
  0 <= k -> length (slice_to l k) = Nat.min (Z.to_nat k) (length l).
Proof.
  intros Hk. unfold slice_to, slice_bound.
  destruct (Z.ltb_spec k 0); [lia |]. apply length_take.
Qed.

Lemma slice_to_in_range {A} (l : list A) (k : Z) :
  0 <= k -> slice_to l k = take (Z.to_nat k) l.
Proof.
  intros Hk. unfold slice_to, slice_bound. by destruct (Z.ltb_spec k 0); [lia |].
Qed.

Lemma slice_from_in_range {A} (l : list A) (k : Z) :
  0 <= k -> slice_from l k = drop (Z.to_nat k) l.
Proof.
  intros Hk. unfold slice_from, slice_bound.
  by destruct (Z.ltb_spec k 0); [lia |].
Qed.

(** A slice from [k] on is a suffix: its last element, if any, is the
    list's. *)
Lemma slice_from_last {A} (l : list A) (k : Z) :
  slice_from l k <> [] -> list.last (slice_from l k) = list.last l.
Proof.
  unfold slice_from. generalize (slice_bound (length l) k). intros n Hne.
  transitivity (list.last (take n l ++ drop n l)); [| by rewrite take_drop].
  rewrite last_app.
  destruct (list.last (drop n l)) eqn:Hl; [done |].
  apply last_None in Hl. done.
Qed.

(** ** The preview: when it is computed and when it raises *)

Section Preview.
Context {S : Type}.
Implicit Types (lines patch_lines : list pystr) (st : S).

Lemma comprehension_cons {A B} (f : A -> Py S B) x xs st :
  comprehension f (x :: xs) st
  = match f x st with
    | (Return y, st') =>
        match comprehension f xs st' with
        | (Return ys, st'') => (Return (y :: ys), st'')
        | (Raise e, st'') => (Raise e, st'')
        end
    | (Raise e, st') => (Raise e, st')
    end.
Proof.
  cbn. unfold bind at 1. destruct (f x st) as [[y | e] st']; [| done].
  unfold bind, ret. by destruct (comprehension f xs st') as [[ys | e] st''].
Qed.

Lemma preview_entry_run mark (l : list pystr) i st :
  preview_entry mark l i st
  = (match getitem l i with
     | Return x => Return (format_width3 (i + 1) ++ mark ++ x)
     | Raise e => Raise e
     end, st).
Proof.
  unfold preview_entry, bind, pure_result, ret. by destruct (getitem l i).
Qed.

Lemma comprehension_entry_valid mark (l : list pystr) (idx : list Z) st :
  Forall (valid_index l) idx ->
  exists ys, comprehension (preview_entry mark l) idx st = (Return ys, st).
Proof.
  induction 1 as [| i idx Hi _ [ys IH]]; [by exists [] |].
  destruct (getitem_valid l i Hi) as [x Hx].
  exists ((format_width3 (i + 1) ++ mark ++ x) :: ys).
  by rewrite comprehension_cons, preview_entry_run, Hx, IH.
Qed.

Lemma comprehension_entry_invalid mark (l : list pystr) (idx : list Z) st :
  ~ Forall (valid_index l) idx ->
  comprehension (preview_entry mark l) idx st = (Raise IndexError, st).
Proof.
  induction idx as [| i idx IH]; intros Hbad; [by destruct Hbad |].
  rewrite comprehension_cons, preview_entry_run.
  destruct (valid_index_dec l i) as [Hi | Hi].
  - destruct (getitem_valid l i Hi) as [x ->].
    rewrite IH; [done |]. intros Hidx. apply Hbad. by constructor.
  - by rewrite (getitem_invalid l i Hi).
Qed.

Lemma preview_ok_dec lines patch_lines start_line end_line :
  {preview_ok lines patch_lines start_line end_line}
  + {~ preview_ok lines patch_lines start_line end_line}.
Proof.
  unfold preview_ok. cbv zeta.
  pose proof (fun (l : list pystr) => Forall_dec (valid_index l)
                                        (valid_index_dec l)) as D.
  destruct (D (spliced_lines lines patch_lines start_line end_line)
              (range (start_line - 3) start_line)); [| right; tauto].
  destruct (D (spliced_lines lines patch_lines start_line end_line)
              (range start_line
                 (start_line + Z.of_nat (length patch_lines))));
    [| right; tauto].
  destruct (end_line <=? start_line + Z.of_nat (length patch_lines)).
  - destruct (D (spliced_lines lines patch_lines start_line end_line)
                (range (start_line + Z.of_nat (length patch_lines))
                   (start_line + Z.of_nat (length patch_lines) + 3)));
      [left; tauto | right; tauto].
  - destruct (D lines (range (start_line + Z.of_nat (length patch_lines))
                         end_line)); [| right; tauto].
    destruct (D lines (range end_line (end_line + 3)));
      [left; tauto | right; tauto].
Qed.

Lemma preview_returns lines patch_lines start_line end_line st :
  preview_ok lines patch_lines start_line end_line ->
  exists pv, preview lines patch_lines start_line end_line st = (Return pv, st).
Proof.
  unfold preview_ok, preview. cbv zeta. intros (H1 & H2 & H3).
  destruct (comprehension_entry_valid (lit " ") _ _ st H1) as [b Hb].
  destruct (comprehension_entry_valid (lit "+") _ _ st H2) as [a Ha].
  unfold bind at 1. rewrite Hb. unfold bind at 1. rewrite Ha.
  destruct (end_line <=? start_line + Z.of_nat (length patch_lines)).
  - destruct (comprehension_entry_valid (lit " ") _ _ st H3) as [r Hr].
    unfold bind, ret. rewrite Hr. eauto.
  - destruct H3 as [H3 H4].
    destruct (comprehension_entry_valid (lit "-") _ _ st H3) as [r Hr].
    destruct (comprehension_entry_valid (lit " ") _ _ st H4) as [r' Hr'].
    unfold bind, ret. rewrite Hr, Hr'. eauto.
Qed.

Lemma preview_raises lines patch_lines start_line end_line st :
  ~ preview_ok lines patch_lines start_line end_line ->
  preview lines patch_lines start_line end_line st = (Raise IndexError, st).
Proof.
  unfold preview_ok, preview. cbv zeta. intros Hbad.
  pose proof (fun (l : list pystr) => Forall_dec (valid_index l)
                                        (valid_index_dec l)) as D.
  unfold bind at 1.
  destruct (D (spliced_lines lines patch_lines start_line end_line)
              (range (start_line - 3) start_line)) as [H1 | H1];
    [| by rewrite comprehension_entry_invalid].
  destruct (comprehension_entry_valid (lit " ") _ _ st H1) as [b ->].
  unfold bind at 1.
  destruct (D (spliced_lines lines patch_lines start_line end_line)
              (range start_line
                 (start_line + Z.of_nat (length patch_lines)))) as [H2 | H2];
    [| by rewrite comprehension_entry_invalid].
  destruct (comprehension_entry_valid (lit "+") _ _ st H2) as [a ->].
  destruct (end_line <=? start_line + Z.of_nat (length patch_lines)).
  - unfold bind. rewrite comprehension_entry_invalid; [done | tauto].
  - unfold bind at 1. unfold bind at 1.
    destruct (D lines (range (start_line + Z.of_nat (length patch_lines))
                         end_line)) as [H3 | H3];
      [| by rewrite comprehension_entry_invalid].
    destruct (comprehension_entry_valid (lit "-") _ _ st H3) as [r ->].
    unfold bind. rewrite comprehension_entry_invalid; [done | tauto].
Qed.

End Preview.

(** ** The patcher: what it returns, and when *)

Lemma patcher_unfold module source start_line end_line patch out :
  patcher module (Some source) start_line end_line patch out
  = match preview (splitlines source) (splitlines patch) start_line end_line
            out with
    | (Return pv, out') =>
        (Return (join [nl] (spliced_lines (splitlines source)
                              (splitlines patch) start_line end_line)),
         out' ++ [reminder module] ++ [headline start_line end_line]
              ++ [join [nl] pv])
    | (Raise e, out') => (Raise e, out')
    end.
Proof.
  unfold patcher, method_splitlines, bind, pure_result, print, ret.
  destruct (preview _ _ _ _ out) as [[pv | e] out']; [| done].
  by rewrite <- !app_assoc.
Qed.

(** The two outcomes of the patcher on a source text: it returns the spliced
    text after three prints, or the preview raises [IndexError] before
    anything is printed. *)
Lemma patcher_run module source start_line end_line patch out :
  let lines := splitlines source in
  let patch_lines := splitlines patch in
  (preview_ok lines patch_lines start_line end_line
   /\ exists pv,
       patcher module (Some source) start_line end_line patch out
       = (Return (join [nl] (spliced_lines lines patch_lines start_line end_line)),
          out ++ [reminder module] ++ [headline start_line end_line]
              ++ [join [nl] pv]))
  \/ (~ preview_ok lines patch_lines start_line end_line
      /\ patcher module (Some source) start_line end_line patch out
         = (Raise IndexError, out)).
Proof.
  cbv zeta. rewrite patcher_unfold.
  destruct (preview_ok_dec (splitlines source) (splitlines patch)
              start_line end_line) as [Hok | Hbad].
  - left. split; [done |].
    destruct (preview_returns _ _ _ _ out Hok) as [pv ->]. by exists pv.
  - right. split; [done |]. by rewrite preview_raises.
Qed.

Lemma spliced_lines_length (lines patch_lines : list pystr) start_line end_line :
  length (spliced_lines lines patch_lines start_line end_line)
  = (length (slice_to lines start_line) + length patch_lines
     + length (slice_from lines end_line))%nat.
Proof. unfold spliced_lines. rewrite !length_app. lia. Qed.

(** With a start line that is not negative, the preview is computed only
    when at least three source lines follow the replaced range. *)
Lemma preview_ok_tail (lines patch_lines : list pystr) start_line end_line :
  0 <= start_line ->
  preview_ok lines patch_lines start_line end_line ->
  (3 <= length (slice_from lines end_line))%nat.
Proof.
  intros Hs (_ & _ & H3). cbv zeta in H3.
  destruct (Z.leb_spec end_line (start_line + Z.of_nat (length patch_lines)))
    as [Hle | Hgt].
  - rewrite list.Forall_forall in H3.
    specialize (H3 (start_line + Z.of_nat (length patch_lines) + 2)).
    destruct H3 as [_ H3]; [apply elem_of_range; lia |].
    rewrite spliced_lines_length, slice_to_length in H3 by done. lia.
  - destruct H3 as [_ H4]. rewrite list.Forall_forall in H4.
    specialize (H4 (end_line + 2)).
    destruct H4 as [_ H4]; [apply elem_of_range; lia |].
    rewrite slice_from_in_range, length_drop by lia. lia.
Qed.

(** With [0 <= start_line <= end_line], three source lines after the
    replaced range are also enough. *)
Lemma preview_ok_in_range (lines patch_lines : list pystr) start_line end_line :
  0 <= start_line <= end_line ->
  end_line + 3 <= Z.of_nat (length lines) ->
  preview_ok lines patch_lines start_line end_line.
Proof.
  intros Hse Hn. unfold preview_ok. cbv zeta.
  assert (Hlen : Z.of_nat (length (spliced_lines lines patch_lines
                                     start_line end_line))
                 = start_line + Z.of_nat (length patch_lines)
                   + (Z.of_nat (length lines) - end_line)).
  { rewrite spliced_lines_length, slice_to_length by lia.
    rewrite slice_from_in_range, length_drop by lia. lia. }
  split; [| split].
  - apply list.Forall_forall. intros i Hi%elem_of_range.
    unfold valid_index. lia.
  - apply list.Forall_forall. intros i Hi%elem_of_range.
    unfold valid_index. lia.
  - destruct (Z.leb_spec end_line (start_line + Z.of_nat (length patch_lines))).
    + apply list.Forall_forall. intros i Hi%elem_of_range.
      unfold valid_index. lia.
    + split; apply list.Forall_forall; intros i Hi%elem_of_range;
        unfold valid_index; lia.
Qed.

(** The patcher on in-range indices with three lines to spare: the
    spliced text, as lines 102-105 compute it. *)
Lemma patcher_in_range_returns module source start_line end_line patch out :
  0 <= start_line <= end_line ->
  end_line + 3 <= Z.of_nat (length (splitlines source)) ->
  exists pv,
    patcher module (Some source) start_line end_line patch out
    = (Return (join [nl] (take (Z.to_nat start_line) (splitlines source)
                          ++ splitlines patch
                          ++ drop (Z.to_nat end_line) (splitlines source))),
       out ++ [reminder module] ++ [headline start_line end_line]
           ++ [join [nl] pv]).
Proof.
  intros Hse Hn.
  destruct (patcher_run module source start_line end_line patch out)
    as [[_ [pv Hpv]] | [Hbad _]].
  - exists pv. rewrite Hpv. unfold spliced_lines.
    by rewrite slice_to_in_range, slice_from_in_range by lia.
  - destruct Hbad. by apply preview_ok_in_range.
Qed.

(** Fewer than three source lines after the replaced range: the patcher
    raises [IndexError] and prints nothing. *)
Lemma patcher_short_tail_raises module source start_line end_line patch out :
  0 <= start_line -> 0 <= end_line ->
  Z.of_nat (length (splitlines source)) < end_line + 3 ->
  patcher module (Some source) start_line end_line patch out
  = (Raise IndexError, out).
Proof.
  intros Hs He Hn.
  destruct (patcher_run module source start_line end_line patch out)
    as [[Hok _] | [_ Hraise]]; [| done].
  apply preview_ok_tail in Hok; [| done].
  rewrite slice_from_in_range, length_drop in Hok by lia. lia.
Qed.

(** ** Lines and line boundaries *)

Lemma splitlines_from_unbroken (s cur : pystr) :
  unbroken cur -> Forall unbroken (splitlines_from cur s).
Proof.
  remember (length s) as n eqn:Hn. revert s cur Hn.
  induction n as [n IH] using lt_wf_ind. intros s cur -> Hcur.
  assert (Hrev : unbroken (rev cur)).
  { by apply Forall_rev. }
  destruct s as [| c rest]; cbn.
  - destruct cur; [constructor | by repeat constructor].
  - destruct (is_linebreak c) eqn:Hc.
    + destruct rest as [| d rest']; [by repeat constructor |].
      destruct ((c =? 13)%N && (d =? 10)%N); constructor; try done.
      * eapply (IH (length rest')); [cbn; lia | done | constructor].
      * eapply (IH (length (d :: rest'))); [cbn; lia | done | constructor].
    + eapply (IH (length rest)); [cbn; lia | done |]. by constructor.
Qed.

Lemma splitlines_unbroken (s : pystr) : Forall unbroken (splitlines s).
Proof. apply splitlines_from_unbroken. constructor. Qed.

Lemma spliced_lines_unbroken source patch start_line end_line :
  Forall unbroken
    (spliced_lines (splitlines source) (splitlines patch) start_line end_line).
Proof.
  unfold spliced_lines, slice_to, slice_from.
  pose proof (splitlines_unbroken source) as Hs.
  pose proof (splitlines_unbroken patch) as Hp.
  rewrite !Forall_app. split; [| split]; try done.
  - by apply Forall_take.
  - by apply Forall_drop.
Qed.

(** The characters of a joined text come from the separator or from one
    of the parts. *)
Lemma elem_of_join (sep : pystr) (parts : list pystr) (c : N) :
  c ∈ join sep parts -> c ∈ sep \/ exists p, p ∈ parts /\ c ∈ p.
Proof.
  induction parts as [| p [| q ps] IH]; cbn [join].
  - by intros ?%elem_of_nil.
  - intros Hc. right. exists p. split; [apply list_elem_of_here | done].
  - intros [Hc | [Hc | Hc]%elem_of_app]%elem_of_app.
    + right. exists p. split; [apply list_elem_of_here | done].
    + by left.
    + destruct (IH Hc) as [? | (p' & Hp' & ?)]; [by left |].
      right. exists p'. split; [by apply list_elem_of_further | done].
Qed.

(** A joined text ends as its last part does, when that part is not
    empty. *)
Lemma join_last (sep : pystr) (parts : list pystr) (x : pystr) :
  list.last parts = Some x -> x <> [] ->
  list.last (join sep parts) = list.last x.
Proof.
  intros Hlast Hx.
  induction parts as [| p [| q ps] IH]; [done | by injection Hlast as -> |].
  change (join sep (p :: q :: ps)) with (p ++ sep ++ join sep (q :: ps)).
  rewrite !last_app, IH by done.
  destruct (list.last x) eqn:Hl; [done |].
  by apply last_None in Hl.
Qed.

(** ** [modify_and_import] step by step *)

Section Install.
Context `{IS : ImportSystem}.

(** [find_spec] case by case. *)
Lemma find_spec_run name package w :
  find_spec name package w
  = match (if starts_with_dot name then resolve_relative name package
           else Return name) with
    | Raise e => (Raise e, w)
    | Return fullname =>
        match sys_modules w !! fullname with
        | Some module =>
            (match heap w !! module ≫= mod_spec with
             | Some spec => Return (Some spec)
             | None => Raise ValueError
             end, w)
        | None =>
            match parent_name fullname with
            | [] => (find_unregistered fullname, w)
            | _ :: _ =>
                match import_module (parent_name fullname) w with
                | (Return _, w1) => (find_unregistered fullname, w1)
                | (Raise e, w1) => (Raise e, w1)
                end
            end
        end
    end.
Proof.
  unfold find_spec, bind, pure_result.
  destruct (if starts_with_dot name then _ else _) as [fullname |]; [| done].
  destruct (sys_modules w !! fullname) as [l |].
  - by destruct (heap w !! l ≫= mod_spec).
  - by destruct (parent_name fullname).
Qed.


(** The lookup changes nothing at all for a name that is registered or
    that has no parent package. *)
Lemma find_spec_pure name package w :
  starts_with_dot name = false ->
  is_Some (sys_modules w !! name) \/ parent_name name = [] ->
  (find_spec name package w).2 = w.
Proof.
  intros Hdot Hcase. rewrite find_spec_run, Hdot.
  destruct (sys_modules w !! name) eqn:Hreg; [done |].
  destruct Hcase as [[? ?] | ->]; done.
Qed.

Lemma find_spec_pure_eq name package w r :
  starts_with_dot name = false ->
  is_Some (sys_modules w !! name) \/ parent_name name = [] ->
  (find_spec name package w).1 = r ->
  find_spec name package w = (r, w).
Proof.
  intros Hdot Hcase <-. rewrite <- (find_spec_pure name package w Hdot Hcase)
    at 3. apply surjective_pairing.
Qed.

(** The whole of [modify_and_import] by cases on its steps; the steps after
    the lookup start from the state that the lookup leaves. *)
Lemma modify_and_import_run name package f w :
  modify_and_import name package f w
  = let w1 := (find_spec name package w).2 in
    match fetch name package w with
    | Raise e => (Raise e, w1)
    | Return (sp, source) =>
        match f source (stdout w1) with
        | (Raise e, out) => (Raise e, set_stdout out w1)
        | (Return new_source, out) =>
            let module := fresh (dom (heap w1)) in
            match compile_source new_source (spec_origin sp) with
            | Raise e =>
                (Raise e,
                 {| sys_modules := sys_modules w1;
                    heap := <[module := {| mod_spec := Some sp;
                                           mod_dict := module_init sp |}]>
                              (heap w1);
                    stdout := out |})
            | Return codeobj =>
                let h := <[module :=
                             {| mod_spec := Some sp;
                                mod_dict := (py_exec codeobj (module_init sp)).1 |}]>
                           (heap w1) in
                match (py_exec codeobj (module_init sp)).2 with
                | Some e =>
                    (Raise e,
                     {| sys_modules := sys_modules w1; heap := h; stdout := out |})
                | None =>
                    (Return module,
                     {| sys_modules := <[name := module]> (sys_modules w1);
                        heap := h; stdout := out |})
                end
            end
        end
    end.
Proof.
  unfold modify_and_import, fetch. unfold bind at 1.
  destruct (find_spec name package w) as [[[sp |] | e] w1];
    cbn [fst snd]; cbv zeta; try done.
  unfold bind at 1. unfold get_source, pure_result.
  destruct (loader_get_source sp name) as [source | e]; [| done].
  unfold bind at 1. unfold lift_out.
  destruct (f source (stdout w1)) as [[new_source | e] out]; [| done].
  unfold bind at 1. unfold module_from_spec.
  unfold bind at 1. unfold spec_origin_of. cbn [heap set_heap set_stdout].
  rewrite lookup_insert_eq. cbn [mbind option_bind mod_spec spec_origin].
  unfold bind at 1.
  destruct (compile_source new_source (spec_origin sp)) as [codeobj | e];
    [| done].
  unfold bind at 1. unfold exec. cbn [heap set_heap]. rewrite lookup_insert_eq.
  cbn [mod_dict mod_spec].
  destruct (py_exec codeobj (module_init sp)) as [d [e |]];
    cbn [fst snd]; unfold set_heap; cbn; by rewrite insert_insert_eq.
Qed.

Lemma fresh_module_ne (h : gmap loc module_obj) (l : loc) (m : module_obj) :
  h !! l = Some m -> fresh (dom h) <> l.
Proof.
  intros Hl Heq. apply (is_fresh (dom h)). rewrite Heq.
  apply elem_of_dom. by exists m.
Qed.

(** What a call leaves, relative to the state after its lookup. *)
Lemma modify_and_import_shape name package f w r w' :
  modify_and_import name package f w = (r, w') ->
  let w1 := (find_spec name package w).2 in
  (forall l m, heap w1 !! l = Some m -> heap w' !! l = Some m)
  /\ (forall e, fetch name package w = Raise e -> w' = w1)
  /\ match r with
     | Raise _ => sys_modules w' = sys_modules w1
     | Return l =>
         heap w1 !! l = None
         /\ sys_modules w' = <[name := l]> (sys_modules w1)
         /\ exists sp source new_source codeobj,
              fetch name package w = Return (sp, source)
              /\ (f source (stdout w1)).1 = Return new_source
              /\ stdout w' = (f source (stdout w1)).2
              /\ compile_source new_source (spec_origin sp) = Return codeobj
              /\ (py_exec codeobj (module_init sp)).2 = None
              /\ heap w' !! l
                 = Some {| mod_spec := Some sp;
                           mod_dict := (py_exec codeobj (module_init sp)).1 |}
     end.
Proof.
  intros H. rewrite modify_and_import_run in H. cbv zeta in *.
  set (w1 := (find_spec name package w).2) in *.
  assert (Hne : forall l m, heap w1 !! l = Some m -> fresh (dom (heap w1)) <> l)
    by (intros; by eapply fresh_module_ne).
  destruct (fetch name package w) as [[sp source] | e0];
    [| injection H as <- <-; repeat split; try done; congruence].
  destruct (f source (stdout w1)) as [[new_source | e0] out] eqn:Hf;
    [| injection H as <- <-; by repeat split].
  destruct (compile_source new_source (spec_origin sp)) as [codeobj | e0]
    eqn:Hc.
  - destruct (py_exec codeobj (module_init sp)).2 eqn:He;
      injection H as <- <-; cbn [heap sys_modules stdout].
    + repeat split; try done.
      intros l m Hl. rewrite lookup_insert_ne; [done | by eapply Hne].
    + split; [| split; [done |]].
      * intros l m Hl. rewrite lookup_insert_ne; [done | by eapply Hne].
      * split; [apply not_elem_of_dom, is_fresh |]. split; [done |].
        exists sp, source, new_source, codeobj.
        rewrite lookup_insert_eq, ?Hf. by repeat split.
  - injection H as <- <-. cbn [heap sys_modules stdout].
    repeat split; try done.
    intros l m Hl. rewrite lookup_insert_ne; [done | by eapply Hne].
Qed.


(** A call that raises leaves the registry as its lookup left it. *)
Lemma modify_and_import_raise_registry name package f w e w' :
  modify_and_import name package f w = (Raise e, w') ->
  sys_modules w' = sys_modules (find_spec name package w).2.
Proof.
  intros H. by destruct (modify_and_import_shape _ _ _ _ _ _ H) as (_ & _ & ?).
Qed.


(** The next call finds what this call found: the registry entry that a
    call writes carries the specification the call started from, a parent
    package that was imported is registered, and a module that the import
    registered carries the finders' specification. When this call's lookup
    succeeded, the next lookup changes nothing. *)
Lemma find_spec_after name package f w r w' :
  modify_and_import name package f w = (r, w') ->
  (find_spec name package w').1 = (find_spec name package w).1
  /\ ((exists x, (find_spec name package w).1 = Return x) ->
      (find_spec name package w').2 = w').
Proof.
  intros H.
  destruct (modify_and_import_shape _ _ _ _ _ _ H) as (Hframe & Hfail & Hr).
  cbv zeta in *. unfold fetch in *.
  set (w1 := (find_spec name package w).2) in *.
  (* what the registry of [w'] is *)
  assert (Hreg : sys_modules w' = sys_modules w1
                 \/ exists l sp d,
                      (find_spec name package w).1 = Return (Some sp)
                      /\ sys_modules w' = <[name := l]> (sys_modules w1)
                      /\ heap w' !! l
                         = Some {| mod_spec := Some sp; mod_dict := d |}).
  { destruct r as [l | e]; [right | by left].
    destruct Hr as (_ & Hreg & sp & source & ? & ? & Hfetch & _ & _ & _ & _ & Hl).
    exists l, sp. eexists. split; [| by split].
    destruct (find_spec name package w).1 as [[sp' |] | ?]; try done.
    destruct (loader_get_source sp' name); congruence. }
  (* a lookup that did not give a specification ends the call *)
  assert (Hstop : forall r0, (find_spec name package w).1 = r0 ->
                    (forall sp, r0 <> Return (Some sp)) -> w' = w1).
  { intros r0 Hr0 Hno.
    destruct (find_spec name package w).1 as [[sp |] | e] eqn:Hfs.
    - by destruct (Hno sp).
    - by apply (Hfail AttributeError).
    - by apply (Hfail e). }
  clear Hr Hfail. subst w1. revert Hframe Hreg Hstop.
  rewrite !find_spec_run.
  destruct (if starts_with_dot name then _ else _) as [fullname |];
    [| done].
  destruct (sys_modules w !! fullname) as [l0 |] eqn:Hfull.
  - (* registered before the call *)
    cbn [fst snd]. intros Hframe Hreg Hstop.
    destruct (heap w !! l0) as [m0 |] eqn:Hl0.
    + destruct Hreg as [-> | (l & sp & d & Hsp & -> & Hl)].
      * rewrite Hfull, (Hframe _ _ Hl0). by split.
      * destruct (decide (name = fullname)) as [<- | Hne].
        -- cbn [mbind option_bind fst] in *.
           destruct (mod_spec m0) as [sp0 |]; [| done].
           injection Hsp as ->. rewrite lookup_insert_eq, Hl. by split.
        -- rewrite lookup_insert_ne, Hfull, (Hframe _ _ Hl0) by done.
           by split.
    + rewrite (Hstop _ eq_refl) by done. rewrite Hfull, Hl0. by split.
  - destruct (parent_name fullname) as [| c cs] eqn:Hparent.
    + (* no parent package *)
      cbn [fst snd]. intros Hframe Hreg Hstop.
      destruct Hreg as [-> | (l & sp & d & Hsp & -> & Hl)].
      * rewrite Hfull. by split.
      * destruct (decide (name = fullname)) as [<- | Hne].
        -- rewrite lookup_insert_eq, Hl. cbn. by split.
        -- rewrite lookup_insert_ne, Hfull by done. by split.
    + (* the parent package is imported *)
      destruct (import_module (c :: cs) w) as [[[] | e] wa] eqn:Himp;
        cbn [fst snd]; intros Hframe Hreg Hstop.
      * destruct (import_registers _ _ _ Himp) as [lp Hlp].
        assert (Hparent' : import_module (c :: cs) w' = (Return tt, w')).
        { destruct Hreg as [Hreg | (l & sp & d & _ & Hreg & _)].
          - apply (import_registered _ _ lp). by rewrite Hreg.
          - destruct (decide (name = c :: cs)) as [Heq | Hne].
            + apply (import_registered _ _ l).
              by rewrite Hreg, Heq, lookup_insert_eq.
            + apply (import_registered _ _ lp).
              by rewrite Hreg, lookup_insert_ne. }
        destruct (sys_modules w' !! fullname) as [l1 |] eqn:Hfull'.
        -- assert (Hl1 : exists m sp,
                     heap w' !! l1 = Some m /\ mod_spec m = Some sp
                     /\ find_unregistered fullname = Return (Some sp)).
           { destruct Hreg as [Hreg | (l & sp & d & Hsp & Hreg & Hl)];
               rewrite Hreg in Hfull'.
             - destruct (import_spec _ _ _ _ _ _ Himp Hfull Hfull')
                 as (m & sp' & Hm & Hsp' & Hfind).
               exists m, sp'. split; [by apply Hframe | by split].
             - destruct (decide (name = fullname)) as [Heq | Hne].
               + rewrite Heq, lookup_insert_eq in Hfull'.
                 injection Hfull' as <-.
                 eexists _, sp. split; [exact Hl | by split].
               + rewrite lookup_insert_ne in Hfull' by done.
                 destruct (import_spec _ _ _ _ _ _ Himp Hfull Hfull')
                   as (m & sp' & Hm & Hsp' & Hfind).
                 exists m, sp'. split; [by apply Hframe | by split]. }
           destruct Hl1 as (m & sp & Hm & Hsp & Hfind).
           rewrite Hm. cbn. rewrite Hsp, Hfind. by split.
        -- rewrite Hparent'. by split.
      * rewrite (Hstop _ eq_refl) by done.
        destruct (import_failure _ _ _ _ Himp) as [Hagain Hkids].
        rewrite (Hkids fullname Hparent Hfull).
        destruct (import_module (c :: cs) wa) as [[[] | e'] wb];
          cbn in Hagain; [done |]. injection Hagain as ->.
        split; [done |]. by intros [x ?].
Qed.

Lemma fetch_after name package f w r w' :
  modify_and_import name package f w = (r, w') ->
  fetch name package w' = fetch name package w.
Proof.
  intros H. unfold fetch.
  by rewrite (proj1 (find_spec_after _ _ _ _ _ _ H)).
Qed.

(** After a call that fetched a source, the next lookup changes nothing. *)
Lemma find_spec_after_state name package f w r w' sp source :
  modify_and_import name package f w = (r, w') ->
  fetch name package w = Return (sp, source) ->
  (find_spec name package w').2 = w'.
Proof.
  intros H Hfetch. apply (proj2 (find_spec_after _ _ _ _ _ _ H)).
  unfold fetch in Hfetch.
  destruct (find_spec name package w).1 as [x |]; [by exists x | done].
Qed.

(** A call whose steps all succeed returns, whatever the registry held. *)
Lemma modify_and_import_succeeds name package f w sp source new_source out
    codeobj :
  fetch name package w = Return (sp, source) ->
  f source (stdout (find_spec name package w).2) = (Return new_source, out) ->
  compile_source new_source (spec_origin sp) = Return codeobj ->
  (py_exec codeobj (module_init sp)).2 = None ->
  exists l w',
    modify_and_import name package f w = (Return l, w')
    /\ sys_modules w' !! name = Some l
    /\ heap w' !! l
       = Some {| mod_spec := Some sp;
                 mod_dict := (py_exec codeobj (module_init sp)).1 |}.
Proof.
  intros Hfetch Hf Hc He. rewrite modify_and_import_run, Hfetch. cbv zeta.
  rewrite Hf, Hc, He. eexists _, _. split; [done |].
  cbn [sys_modules heap]. by rewrite !lookup_insert_eq.
Qed.

End Install.

(** ** The Executor: claims on [modify_and_import] *)

Section Executor.
Context `{IS : ImportSystem}.



(** C5. After any call on a module, the next call on it fetches the same
    specification and the same source text as the first one did, and,
    when its own steps succeed, registers a module whose namespace is the
    one its own transform of that source gives: nothing of the earlier
    call's transform is in it. *)
Theorem C5_patches_start_from_pristine_source name package f1 f2 w0 r1 w1 :
  modify_and_import name package f1 w0 = (r1, w1) ->
  fetch name package w1 = fetch name package w0
  /\ forall sp source new_source out codeobj,
       fetch name package w0 = Return (sp, source) ->
       f2 source (stdout w1) = (Return new_source, out) ->
       compile_source new_source (spec_origin sp) = Return codeobj ->
       (py_exec codeobj (module_init sp)).2 = None ->
       exists l w2,
         modify_and_import name package f2 w1 = (Return l, w2)
         /\ sys_modules w2 !! name = Some l
         /\ heap w2 !! l
            = Some {| mod_spec := Some sp;
                      mod_dict := (py_exec codeobj (module_init sp)).1 |}.
Proof.
  intros Hrun. pose proof (fetch_after _ _ _ _ _ _ Hrun) as Hsame.
  split; [done |]. intros sp source new_source out codeobj Hfetch Hf Hc He.
  eapply modify_and_import_succeeds; [by rewrite Hsame | | done..].
  by rewrite (find_spec_after_state _ _ _ _ _ _ _ _ Hrun Hfetch).
Qed.

(** C6. Let the pristine source of a module compile and run to the end:
    the namespace it leaves is that of the never-patched module. After
    any patch of that module, unpatching it returns, and the name then
    resolves to a module with exactly that namespace. *)
Theorem C6_unpatch_restores_original name f w0 r1 w1 sp source codeobj :
  fetch name None w0 = Return (sp, Some source) ->
  py_compile source (spec_origin sp) = Return codeobj ->
  (py_exec codeobj (module_init sp)).2 = None ->
  modify_and_import name None f w0 = (r1, w1) ->
  exists l w2,
    unpatchimport name w1 = (Return tt, w2)
    /\ sys_modules w2 !! name = Some l
    /\ heap w2 !! l
       = Some {| mod_spec := Some sp;
                 mod_dict := (py_exec codeobj (module_init sp)).1 |}.
Proof.
  intros Hfetch Hc He Hrun.
  destruct (modify_and_import_succeeds name None (fun s => ret s) w1 sp
              (Some source) (Some source)
              (stdout (find_spec name None w1).2) codeobj)
    as (l & w2 & Hun & Hreg & Hl).
  - by rewrite (fetch_after _ _ _ _ _ _ Hrun).
  - done.
  - done.
  - done.
  - exists l, w2. unfold unpatchimport, bind. by rewrite Hun.
Qed.

End Executor.

(** ** The header parser and the validation of the magic *)

Section Magic.
Context `{IS : ImportSystem}.

(** Reading an attribute of the pair that [parse_known_args] returns
    raises. *)
Lemma parse_args_run line out :
  parse_args line out
  = match shlex_split line with
    | Return argv =>
        match argparse_positionals argv out with
        | (Return _, out') => (Raise AttributeError, out')
        | (Raise e, out') => (Raise e, out')
        end
    | Raise e => (Raise e, out)
    end.
Proof.
  unfold parse_args, parse_known_args, bind, pure_result, ret.
  destruct (shlex_split line) as [argv | e]; [| done].
  by destruct (argparse_positionals argv out) as [[[ns extras] | e] out'].
Qed.

(** [parse_args] returns on no input. *)
Lemma parse_args_never_returns line out args out' :
  parse_args line out <> (Return args, out').
Proof.
  rewrite parse_args_run.
  destruct (shlex_split line) as [argv | e]; [| done].
  by destruct (argparse_positionals argv out) as [[[ns extras] | e] out''].
Qed.

(** The validation of lines 88-96, on arguments as a working parser would
    hand them over. *)
Lemma patchimport_checked_start_below_1 (args : PatchArgs) cell w :
  start_line args < 1 ->
  patchimport_checked args cell w
  = (Return tt,
     set_stdout (stdout w ++ [lit "Error: start_line must be at least 1"]) w).
Proof.
  intros Hs. unfold patchimport_checked.
  by destruct (Z.ltb_spec (start_line args) 1); [| lia].
Qed.

Lemma patchimport_checked_end_not_above_start (args : PatchArgs) e cell w :
  1 <= start_line args -> end_line args = Some e -> e <= start_line args ->
  patchimport_checked args cell w
  = (Return tt,
     set_stdout (stdout w
                 ++ [lit "Error: end_line must be greater than start_line"]) w).
Proof.
  intros Hs He Hle. unfold patchimport_checked. rewrite He.
  destruct (Z.ltb_spec (start_line args) 1); [lia |].
  by destruct (Z.leb_spec e (start_line args)); [| lia].
Qed.

(** Line 99: without an end line, the patcher gets the start line twice. *)
Lemma patchimport_checked_no_end (args : PatchArgs) cell w :
  1 <= start_line args -> end_line args = None ->
  patchimport_checked args cell w
  = (modify_and_import (module args) None
       (patcher_partial (module args) (start_line args) (start_line args)
          cell) ;;; ret tt) w.
Proof.
  intros Hs He. unfold patchimport_checked. rewrite He.
  by destruct (Z.ltb_spec (start_line args) 1); [lia |].
Qed.

(** C9. On a header that [shlex.split] splits and [argparse] accepts, with
    whatever module name and line numbers, [parse_args] raises
    [AttributeError]: it reads the attributes of the pair that
    [parse_known_args] returns, not of the namespace inside it. *)
Theorem C9_parse_args_raises_on_accepted_header line argv ns extras out out' :
  shlex_split line = Return argv ->
  argparse_positionals argv out = (Return (ns, extras), out') ->
  parse_args line out = (Raise AttributeError, out').
Proof. intros Hsplit Hparse. by rewrite parse_args_run, Hsplit, Hparse. Qed.

(** C7. On a header with a start line below 1, or with an end line that
    is not above the start line, the magic raises [AttributeError] out of
    [parse_args]: it prints no diagnostic of its own, and the registry and
    the module objects are what they were. *)
Theorem C7_invalid_line_numbers_raise line cell argv ns extras w out' :
  shlex_split line = Return argv ->
  argparse_positionals argv (stdout w) = (Return (ns, extras), out') ->
  (ns_start_line ns < 1
   \/ exists e, ns_end_line ns = Some e /\ e <= ns_start_line ns) ->
  patchimport line cell w = (Raise AttributeError, set_stdout out' w).
Proof.
  intros Hsplit Hparse _. unfold patchimport, lift_out.
  by rewrite parse_args_run, Hsplit, Hparse.
Qed.

End Magic.

(** ** The Splicer: claims on [patcher] *)

Lemma spliced_lines_last (lines patch_lines : list pystr) start_line end_line :
  slice_from lines end_line <> [] ->
  list.last (spliced_lines lines patch_lines start_line end_line)
  = list.last lines.
Proof.
  intros Htail. unfold spliced_lines.
  rewrite !last_app, slice_from_last by done.
  rewrite <- (slice_from_last _ end_line) by done.
  destruct (list.last (slice_from lines end_line)) eqn:Hl; [done |].
  by apply last_None in Hl.
Qed.

(** A text joined with ["\n"] ends with a newline exactly when its last
    part is empty and it has at least two parts. *)
Lemma join_last_nl (parts : list pystr) :
  Forall unbroken parts ->
  list.last (join [nl] parts) = Some nl
  <-> list.last parts = Some [] /\ (2 <= length parts)%nat.
Proof.
  induction parts as [| p [| q ps] IH]; intros Hparts.
  - cbn. split; [done | by intros [? _]].
  - cbn [join]. split.
    + intros Hnl%last_Some_elem_of.
      inversion Hparts as [| ? ? Hp _]; subst. unfold unbroken in Hp.
      rewrite list.Forall_forall in Hp. by specialize (Hp nl Hnl).
    + cbn. intros [_ ?]. lia.
  - inversion Hparts as [| ? ? _ Hrest]; subst. specialize (IH Hrest).
    change (join [nl] (p :: q :: ps)) with (p ++ nl :: join [nl] (q :: ps)).
    rewrite last_app_cons.
    change (list.last (p :: q :: ps)) with (list.last (q :: ps)).
    destruct (join [nl] (q :: ps)) as [| c J] eqn:HJ.
    + assert (q = [] /\ ps = []) as [-> ->].
      { destruct ps as [| r ps']; [by split |].
        change (join [nl] (q :: r :: ps'))
          with (q ++ nl :: join [nl] (r :: ps')) in HJ.
        by destruct q. }
      cbn. split; [intros _; split; [done | lia] | done].
    + change (list.last (nl :: c :: J)) with (list.last (c :: J)).
      rewrite IH. split; intros [Hlast Hlen]; (split; [done |]).
      * cbn. lia.
      * destruct ps as [| r ps']; [| cbn; lia].
        cbn in Hlast. injection Hlast as ->. by cbn in HJ.
Qed.

(** C10, as amended. In every text that the patcher returns, whatever the
    indices, the only line boundaries are ["\n"]. A returned text ends
    with a newline exactly when the last of the spliced lines is empty and
    there are at least two of them; for a start line that is not negative
    that is exactly when the source's last line is empty. *)
Theorem C10_returned_text_newlines module source start_line end_line patch
    out r out' :
  patcher module (Some source) start_line end_line patch out = (Return r, out') ->
  (forall c, c ∈ r -> is_linebreak c = true -> c = nl)
  /\ (list.last r = Some nl
      <-> list.last (spliced_lines (splitlines source) (splitlines patch)
                       start_line end_line) = Some []
          /\ (2 <= length (spliced_lines (splitlines source)
                             (splitlines patch) start_line end_line))%nat)
  /\ (0 <= start_line ->
      list.last r = Some nl <-> list.last (splitlines source) = Some []).
Proof.
  intros Hrun.
  destruct (patcher_run module source start_line end_line patch out)
    as [[Hok [pv Hpv]] | [_ Hraise]]; [| congruence].
  rewrite Hpv in Hrun. injection Hrun as <- _.
  pose proof (spliced_lines_unbroken source patch start_line end_line)
    as Hparts.
  split; [| split].
  - rewrite list.Forall_forall in Hparts.
    intros c [Hc%list_elem_of_singleton | (p & Hp & Hc)]%elem_of_join Hbreak;
      [done |].
    pose proof (Hparts p Hp) as Hp'. unfold unbroken in Hp'.
    rewrite list.Forall_forall in Hp'. specialize (Hp' c Hc). congruence.
  - by apply join_last_nl.
  - intros Hs. rewrite join_last_nl by done.
    apply preview_ok_tail in Hok; [| done].
    assert (Htail : slice_from (splitlines source) end_line <> [])
      by (intros Hnil; rewrite Hnil in Hok; cbn in Hok; lia).
    rewrite spliced_lines_last by done.
    split; [by intros [? _] | intros Hlast; split; [done |]].
    rewrite spliced_lines_length. lia.
Qed.

(** C8. With [0 <= start_line <= end_line] and fewer than three source
    lines from [end_line] on, in particular with [end_line] past the end of
    the source, the patcher raises [IndexError] while it builds the preview,
    and returns no text. *)
Theorem C8_preview_raises_near_the_end module source start_line end_line
    patch out :
  0 <= start_line <= end_line ->
  Z.of_nat (length (splitlines source)) < end_line + 3 ->
  patcher module (Some source) start_line end_line patch out
  = (Raise IndexError, out).
Proof.
  intros Hse Hn. apply patcher_short_tail_raises; lia.
Qed.

(** C1. On the source, the range and the patch of [test_patcher_logic]
    (replacement of lines 1-2 of four lines), in range, the patcher raises
    [IndexError] where the spliced text is expected. *)
Theorem C1_patcher_raises_in_range :
  (0 <= 1 <= 3 /\ 3 <= Z.of_nat (length (splitlines Demo.test_source)))
  /\ patcher (lit "m") (Some Demo.test_source) 1 3 Demo.test_patch []
     = (Raise IndexError, []).
Proof. split; [vm_compute; intuition discriminate | by vm_compute]. Qed.

(** The first example of the design document, pure insertion, is computed
    as stated. *)
Lemma patcher_insertion_example :
  (patcher (lit "letters") (Some Demo.letters_source) 1 1
     (join [nl] [lit "X"; lit "Y"]) []).1
  = Return (join [nl] [lit "a"; lit "X"; lit "Y"; lit "b"; lit "c"; lit "d"]).
Proof. by vm_compute. Qed.

(** C2. The second example of the design document, [START_LINE=2],
    [END_LINE=4] with body [X] on the lines [a], [b], [c], [d]: the magic
    raises [AttributeError] on the header; past the parser, lines 88-139
    raise [IndexError] and register nothing; and so does the patcher
    itself on the internal indices 1 and 3. *)
Theorem C2_range_replacement_example_raises :
  patchimport (IS := Demo.demo_imports) (lit "letters 2 4") (lit "X") Demo.start
  = (Raise AttributeError, Demo.start)
  /\ patchimport_checked (IS := Demo.demo_imports)
       {| module := lit "letters"; start_line := 2; end_line := Some 4 |}
       (lit "X") Demo.start
     = (Raise IndexError, Demo.start)
  /\ patcher (lit "letters") (Some Demo.letters_source) (2 - 1) (4 - 1)
       (lit "X") []
     = (Raise IndexError, []).
Proof. repeat split; by vm_compute. Qed.

(** C10 as stated fails: this source ends with a newline, and so does the
    text that the patcher returns for it. *)
Lemma C10_trailing_newline_counterexample :
  ~ (forall module source start_line end_line patch out r out',
       list.last source = Some nl ->
       patcher module (Some source) start_line end_line patch out
       = (Return r, out') ->
       list.last r <> Some nl
       /\ forall c, c ∈ r -> is_linebreak c = true -> c = nl).
Proof.
  intros H.
  destruct (H (lit "m")
              (join [nl] [lit "a"; lit "b"; lit "c"; lit "d"; []] ++ [nl])
              1 1 (lit "X") []
              (join [nl] [lit "a"; lit "X"; lit "b"; lit "c"; lit "d"; []])
              (patcher (lit "m")
                 (Some (join [nl] [lit "a"; lit "b"; lit "c"; lit "d"; []]
                        ++ [nl])) 1 1 (lit "X") []).2)
    as [Hlast _]; [by vm_compute | by vm_compute |].
  by apply Hlast.
Qed.

(** With a negative start line the returned text can end with the patch's
    last line: here the source ends with one newline after [c], the patch
    ends with an empty line, and the returned text ends with a newline. *)
Lemma patcher_negative_start_example :
  (patcher (lit "m") (Some (join [nl] [lit "a"; lit "b"; lit "c"] ++ [nl]))
     (-1) 3 (join [nl] [lit "w"; lit "x"; lit "y"; []] ++ [nl]) []).1
  = Return (join [nl] [lit "a"; lit "b"; lit "w"; lit "x"; lit "y"; []]).
Proof. by vm_compute. Qed.


(** A patch of [pkg.mod] that succeeds registers [pkg] besides
    [pkg.mod]. *)
Lemma dotted_name_registers_parent :
  (modify_and_import (IS := Demo.pkg_imports) (lit "pkg.mod") None
     (fun source => ret source) Demo.pkg_start).1 = Return 2%nat
  /\ sys_modules (modify_and_import (IS := Demo.pkg_imports) (lit "pkg.mod")
                    None (fun source => ret source) Demo.pkg_start).2
     !! lit "pkg" = Some 0%nat
  /\ sys_modules (modify_and_import (IS := Demo.pkg_imports) (lit "pkg.mod")
                    None (fun source => ret source) Demo.pkg_start).2
     !! lit "pkg.mod" = Some 2%nat.
Proof. repeat split; vm_compute; reflexivity. Qed.

(** ** The theorems at concrete inputs *)



Lemma C5_pristine_source_witness :
  fetch (IS := Demo.demo_imports) (lit "settings") None
    (modify_and_import (IS := Demo.demo_imports) (lit "settings") None
       Demo.replace_constant Demo.start).2
  = fetch (IS := Demo.demo_imports) (lit "settings") None Demo.start
  /\ exists l w2,
       modify_and_import (IS := Demo.demo_imports) (lit "settings") None
         Demo.add_variable
         (modify_and_import (IS := Demo.demo_imports) (lit "settings") None
            Demo.replace_constant Demo.start).2
       = (Return l, w2)
       /\ sys_modules w2 !! lit "settings" = Some l
       /\ module_attr w2 l (lit "CONSTANT") = Some (lit "original")
       /\ module_attr w2 l (lit "NEW_VARIABLE") = Some (lit "added").
Proof.
  destruct (C5_patches_start_from_pristine_source (IS := Demo.demo_imports)
              (lit "settings") None Demo.replace_constant Demo.add_variable
              Demo.start _ _ (surjective_pairing _)) as [Hsame Hnext].
  split; [exact Hsame |].
  edestruct Hnext as (l & w2 & Hrun & Hreg & Hl);
    [vm_compute; reflexivity | vm_compute; reflexivity
    | vm_compute; reflexivity | vm_compute; reflexivity |].
  exists l, w2. unfold module_attr. rewrite Hl.
  split; [exact Hrun |]. split; [exact Hreg |].
  split; vm_compute; reflexivity.
Defined.

Lemma C6_unpatch_witness :
  exists l w2,
    unpatchimport (IS := Demo.demo_imports) (lit "settings")
      (modify_and_import (IS := Demo.demo_imports) (lit "settings") None
         Demo.replace_constant Demo.start).2
    = (Return tt, w2)
    /\ sys_modules w2 !! lit "settings" = Some l
    /\ module_attr w2 l (lit "CONSTANT") = Some (lit "original")
    /\ module_attr Demo.imported 0%nat (lit "CONSTANT") = Some (lit "original").
Proof.
  edestruct (C6_unpatch_restores_original (IS := Demo.demo_imports)
               (lit "settings") Demo.replace_constant Demo.start)
    as (l & w2 & Hrun & Hreg & Hl);
    [vm_compute; reflexivity | vm_compute; reflexivity
    | vm_compute; reflexivity | apply surjective_pairing |].
  exists l, w2. unfold module_attr. rewrite Hl.
  split; [exact Hrun |]. split; [exact Hreg |].
  split; vm_compute; reflexivity.
Defined.

Lemma C7_invalid_line_numbers_witness :
  patchimport (IS := Demo.demo_imports) (lit "dummy_module 0") (lit "pass")
    Demo.start
  = (Raise AttributeError, Demo.start)
  /\ patchimport (IS := Demo.demo_imports) (lit "dummy_module 10 5")
       (lit "pass") Demo.start
     = (Raise AttributeError, Demo.start).
Proof.
  split.
  - eapply (C7_invalid_line_numbers_raise (IS := Demo.demo_imports)
              (lit "dummy_module 0") (lit "pass") _ _ _ Demo.start []);
      [vm_compute; reflexivity | vm_compute; reflexivity
      | left; vm_compute; reflexivity].
  - eapply (C7_invalid_line_numbers_raise (IS := Demo.demo_imports)
              (lit "dummy_module 10 5") (lit "pass") _ _ _ Demo.start []);
      [vm_compute; reflexivity | vm_compute; reflexivity
      | right; eexists; split; [vm_compute; reflexivity | vm_compute; discriminate]].
Defined.

Lemma C8_preview_raises_witness :
  patcher (lit "m") (Some (join [nl] [lit "a"; lit "b"])) 1 5 (lit "X") []
  = (Raise IndexError, []).
Proof.
  apply (C8_preview_raises_near_the_end (lit "m")
           (join [nl] [lit "a"; lit "b"]) 1 5 (lit "X") []);
    [lia | vm_compute; reflexivity].
Defined.

Lemma C9_parse_args_witness :
  parse_args (RT := Demo.demo_runtime) (lit "my_module 10") []
  = (Raise AttributeError, []).
Proof.
  eapply (C9_parse_args_raises_on_accepted_header (RT := Demo.demo_runtime));
    [vm_compute; reflexivity | vm_compute; reflexivity].
Defined.

Lemma C10_returned_text_witness :
  (forall c, c ∈ join [nl] [lit "a"; lit "X"; lit "c"; lit "d"; lit "e"] ->
     is_linebreak c = true -> c = nl)
  /\ (list.last (join [nl] [lit "a"; lit "X"; lit "c"; lit "d"; lit "e"])
      = Some nl
      <-> list.last (spliced_lines (splitlines Demo.mixed_source)
                       (splitlines (lit "X")) 1 2) = Some []
          /\ (2 <= length (spliced_lines (splitlines Demo.mixed_source)
                             (splitlines (lit "X")) 1 2))%nat)
  /\ (0 <= 1 ->
      list.last (join [nl] [lit "a"; lit "X"; lit "c"; lit "d"; lit "e"])
      = Some nl
      <-> list.last (splitlines Demo.mixed_source) = Some []).
Proof.
  apply (C10_returned_text_newlines (lit "m") Demo.mixed_source 1 2 (lit "X")
           [] _ (patcher (lit "m") (Some Demo.mixed_source) 1 2 (lit "X") []).2).
  vm_compute; reflexivity.
Defined.

(** * Further properties of the code *)

(** ** Splitting and joining lines *)

Lemma is_linebreak_nl : is_linebreak nl = true.
Proof. reflexivity. Qed.

Lemma splitlines_from_unbroken_app (x cur rest : pystr) :
  unbroken x ->
  splitlines_from cur (x ++ rest) = splitlines_from (rev x ++ cur) rest.
Proof.
  intros Hx. revert cur. induction Hx as [| c x Hc _ IH]; intros cur; [done |].
  cbn [app splitlines_from rev]. rewrite Hc, IH. by rewrite <- app_assoc.
Qed.

Lemma splitlines_from_nl (cur rest : pystr) :
  splitlines_from cur (nl :: rest) = rev cur :: splitlines_from [] rest.
Proof.
  cbn [splitlines_from]. rewrite is_linebreak_nl. by destruct rest.
Qed.

(** Joining lines with ["\n"] and splitting again gives the lines back,
    unless the last line is empty. *)
Lemma splitlines_join (parts : list pystr) :
  Forall unbroken parts -> list.last parts <> Some [] ->
  splitlines (join [nl] parts) = parts.
Proof.
  unfold splitlines. intros Hparts Hlast.
  induction parts as [| p [| q ps] IH]; [done | |].
  - cbn [join]. rewrite <- (app_nil_r p) at 1.
    rewrite splitlines_from_unbroken_app by by inversion Hparts.
    rewrite app_nil_r. cbn [splitlines_from].
    destruct (rev p) eqn:Hrev.
    + destruct Hlast. apply (f_equal (@rev _)) in Hrev.
      rewrite rev_involutive in Hrev. by rewrite Hrev.
    + by rewrite <- Hrev, rev_involutive.
  - change (join [nl] (p :: q :: ps)) with (p ++ nl :: join [nl] (q :: ps)).
    inversion Hparts as [| ? ? Hp Hrest]; subst.
    rewrite splitlines_from_unbroken_app by done.
    rewrite app_nil_r, splitlines_from_nl, rev_involutive.
    by rewrite IH.
Qed.

(** One ["\n"] after a text that does not end in a line boundary opens no
    line. *)
Lemma splitlines_from_snoc_nl (s cur : pystr) :
  (s = [] -> cur <> []) ->
  (forall c, list.last s = Some c -> is_linebreak c = false) ->
  splitlines_from cur (s ++ [nl]) = splitlines_from cur s.
Proof.
  remember (length s) as n eqn:Hn. revert s cur Hn.
  induction n as [n IH] using lt_wf_ind. intros s cur -> Hcur Hlast.
  destruct s as [| c rest].
  - cbn. rewrite is_linebreak_nl. destruct cur; [by destruct Hcur | done].
  - cbn [app splitlines_from]. destruct (is_linebreak c) eqn:Hc.
    + destruct rest as [| d rest'];
        [specialize (Hlast c eq_refl); congruence |].
      cbn [app]. destruct ((c =? 13)%N && (d =? 10)%N) eqn:Hcrlf.
      * f_equal. apply (IH (length rest')); [cbn; lia | done | |].
        -- intros ->. apply andb_prop in Hcrlf as [_ Hd%N.eqb_eq].
           specialize (Hlast d eq_refl). by subst d.
        -- intros c' Hc'. apply Hlast.
           destruct rest'; [done |]. exact Hc'.
      * f_equal.
        apply (IH (length (d :: rest')) ltac:(cbn; lia) (d :: rest') []);
          [done | done |].
        intros c' Hc'. by apply Hlast.
    + apply (IH (length rest)); [cbn; lia | done | done |].
      intros c' Hc'. apply Hlast. destruct rest; [done |]. exact Hc'.
Qed.

Lemma splitlines_snoc_nl (s : pystr) (c : N) :
  list.last s = Some c -> is_linebreak c = false ->
  splitlines (s ++ [nl]) = splitlines s.
Proof.
  intros Hlast Hc. apply splitlines_from_snoc_nl.
  - by intros ->.
  - intros c' Hc'. congruence.
Qed.

(** ** The text that the patcher returns *)

(** What a returned text is, and that three source lines follow the
    replaced range. *)
Lemma patcher_return_lines module source start_line end_line patch out r out' :
  0 <= start_line ->
  patcher module (Some source) start_line end_line patch out = (Return r, out') ->
  r = join [nl] (spliced_lines (splitlines source) (splitlines patch)
                   start_line end_line)
  /\ (3 <= length (slice_from (splitlines source) end_line))%nat.
Proof.
  intros Hs Hrun.
  destruct (patcher_run module source start_line end_line patch out)
    as [[Hok [pv Hpv]] | [_ Hraise]]; [| congruence].
  rewrite Hpv in Hrun. injection Hrun as <- _.
  split; [done |]. by eapply preview_ok_tail.
Qed.

Lemma spliced_lines_empty_patch (lines : list pystr) (k : Z) :
  spliced_lines lines [] k k = lines.
Proof. unfold spliced_lines, slice_to, slice_from. cbn. apply take_drop. Qed.

(** X1. With [0 <= start_line <= end_line] and at least three source lines
    from [end_line] on, the patcher returns the source's lines before
    [start_line], the patch's lines and the source's lines from [end_line]
    on, joined with ["\n"], and prints exactly three texts: the reminder,
    the headline and the preview. *)
Theorem X1_patcher_returns_spliced_text module source start_line end_line
    patch out :
  0 <= start_line <= end_line ->
  end_line + 3 <= Z.of_nat (length (splitlines source)) ->
  exists pv,
    patcher module (Some source) start_line end_line patch out
    = (Return (join [nl] (take (Z.to_nat start_line) (splitlines source)
                          ++ splitlines patch
                          ++ drop (Z.to_nat end_line) (splitlines source))),
       out ++ [reminder module; headline start_line end_line; pv]).
Proof.
  intros Hse Hn.
  destruct (patcher_in_range_returns module source start_line end_line patch
              out Hse Hn) as [pv Hpv].
  by exists (join [nl] pv).
Qed.

(** X2. For every source text and all integer line indices, negative or
    past the end, the patcher has one of two outcomes: it returns the text
    spliced by slice semantics after printing exactly three texts, or it
    raises [IndexError] having printed nothing. It raises no other
    exception and never prints part of its output. *)
Theorem X2_patcher_all_or_nothing module source start_line end_line patch out :
  (exists pv,
     patcher module (Some source) start_line end_line patch out
     = (Return (join [nl] (slice_to (splitlines source) start_line
                           ++ splitlines patch
                           ++ slice_from (splitlines source) end_line)),
        out ++ [reminder module; headline start_line end_line; pv]))
  \/ patcher module (Some source) start_line end_line patch out
     = (Raise IndexError, out).
Proof.
  destruct (patcher_run module source start_line end_line patch out)
    as [[_ [pv Hpv]] | [_ Hraise]]; [left | by right].
  by exists (join [nl] pv).
Qed.

(** X3. When the source's last line is not empty and the start line is not
    negative, the lines of a returned text are exactly the spliced lines:
    splitting what the patcher returns gives back the source's lines
    before [start_line], the patch's lines and the source's lines from
    [end_line] on. *)
Theorem X3_returned_text_lines module source start_line end_line patch out
    r out' :
  0 <= start_line ->
  list.last (splitlines source) <> Some [] ->
  patcher module (Some source) start_line end_line patch out = (Return r, out') ->
  splitlines r
  = slice_to (splitlines source) start_line ++ splitlines patch
      ++ slice_from (splitlines source) end_line.
Proof.
  intros Hs Hlast Hrun.
  destruct (patcher_return_lines _ _ _ _ _ _ _ _ Hs Hrun) as [-> Htail].
  rewrite splitlines_join; [done | apply spliced_lines_unbroken |].
  rewrite spliced_lines_last; [done |].
  intros Hnil. rewrite Hnil in Htail. cbn in Htail. lia.
Qed.

(** X4. Where each line ends up, under the conditions of X3 with
    [start_line <= end_line]: line [i] of the returned text is line [i] of
    the source before [start_line], then the patch's line [i - start_line],
    and after the patch the source's line shifted by the number of patch
    lines less the number of replaced lines. *)
Theorem X4_returned_line_positions module source start_line end_line patch
    out r out' (i : nat) :
  0 <= start_line <= end_line ->
  list.last (splitlines source) <> Some [] ->
  patcher module (Some source) start_line end_line patch out = (Return r, out') ->
  let s := Z.to_nat start_line in
  let e := Z.to_nat end_line in
  let p := length (splitlines patch) in
  ((i < s)%nat -> splitlines r !! i = splitlines source !! i)
  /\ ((s <= i < s + p)%nat ->
      splitlines r !! i = splitlines patch !! (i - s)%nat)
  /\ ((s + p <= i)%nat ->
      splitlines r !! i = splitlines source !! (i - (s + p) + e)%nat).
Proof.
  intros Hse Hlast Hrun. cbv zeta.
  destruct (patcher_return_lines _ _ _ _ _ _ _ _ (proj1 Hse) Hrun)
    as [-> Htail].
  rewrite slice_from_in_range, length_drop in Htail by lia.
  rewrite splitlines_join; [| apply spliced_lines_unbroken |].
  - unfold spliced_lines.
    rewrite slice_to_in_range, slice_from_in_range by lia.
    assert (Htake : length (take (Z.to_nat start_line) (splitlines source))
                    = Z.to_nat start_line) by (rewrite length_take; lia).
    split; [| split]; intros Hi.
    + rewrite lookup_app_l by lia. by rewrite lookup_take_lt by lia.
    + rewrite lookup_app_r by lia. rewrite Htake.
      by rewrite lookup_app_l by lia.
    + rewrite lookup_app_r by lia. rewrite Htake.
      rewrite lookup_app_r by lia. rewrite lookup_drop. f_equal. lia.
  - rewrite spliced_lines_last; [done |].
    rewrite slice_from_in_range by lia. intros Hnil.
    apply (f_equal (@length _)) in Hnil. rewrite length_drop in Hnil.
    cbn in Hnil. lia.
Qed.

(** X5. One newline at the end of the source changes nothing: on a source
    that does not end in a line boundary, with and without a ["\n"] added,
    the patcher returns the same text and prints the same output, or raises
    alike. *)
Theorem X5_trailing_newline_ignored module source c start_line end_line
    patch out :
  list.last source = Some c -> is_linebreak c = false ->
  patcher module (Some (source ++ [nl])) start_line end_line patch out
  = patcher module (Some source) start_line end_line patch out.
Proof.
  intros Hlast Hc.
  by rewrite !patcher_unfold, (splitlines_snoc_nl source c).
Qed.

(** X6. An empty cell inserted at any line changes no line: when the
    patcher returns on an empty patch with [start_line = end_line], the
    text is the source's lines joined with ["\n"], and, unless the source
    ends with an empty line, it has exactly the lines of the source. *)
Theorem X6_empty_cell_keeps_lines module source k out r out' :
  patcher module (Some source) k k [] out = (Return r, out') ->
  r = join [nl] (splitlines source)
  /\ (list.last (splitlines source) <> Some [] ->
      splitlines r = splitlines source).
Proof.
  intros Hrun.
  destruct (patcher_run module source k k [] out)
    as [[_ [pv Hpv]] | [_ Hraise]]; [| congruence].
  rewrite Hpv in Hrun. injection Hrun as <- _.
  change (splitlines []) with (@nil pystr).
  rewrite spliced_lines_empty_patch. split; [done |].
  intros Hlast. apply splitlines_join; [apply splitlines_unbroken | done].
Qed.

(** ** What the preview shows *)

Lemma getitem_nonneg {A} (l : list A) (i : Z) (x : A) :
  0 <= i -> l !! Z.to_nat i = Some x -> getitem l i = Return x.
Proof.
  intros Hi Hx. unfold getitem. cbv zeta.
  destruct (Z.ltb_spec i 0); [lia |].
  destruct (Z.ltb_spec i 0); [lia |]. by rewrite Hx.
Qed.

Lemma getitem_negative {A} (l : list A) (i : Z) (x : A) :
  i < 0 -> 0 <= i + Z.of_nat (length l) ->
  l !! Z.to_nat (i + Z.of_nat (length l)) = Some x -> getitem l i = Return x.
Proof.
  intros Hi Hlen Hx. unfold getitem. cbv zeta.
  destruct (Z.ltb_spec i 0); [| lia].
  destruct (Z.ltb_spec (i + Z.of_nat (length l)) 0); [lia |]. by rewrite Hx.
Qed.

Lemma range_lookup (a b : Z) (k : nat) :
  Z.of_nat k < b - a -> range a b !! k = Some (a + Z.of_nat k).
Proof.
  intros Hk. unfold range. rewrite list_lookup_fmap, lookup_seq_lt by lia.
  done.
Qed.

Lemma range_length (a b : Z) : length (range a b) = Z.to_nat (b - a).
Proof. unfold range. by rewrite length_fmap, length_seq. Qed.

Section PreviewContents.
Context {S : Type}.

Lemma bind_Return {A B} (m : Py S A) (k : A -> Py S B) st y st' :
  bind m k st = (Return y, st') ->
  exists a st1, m st = (Return a, st1) /\ k a st1 = (Return y, st').
Proof.
  unfold bind. destruct (m st) as [[a | e] st1]; [| done]. eauto.
Qed.

Lemma comprehension_entry_Forall2 mark (l : list pystr) idx (st st' : S) ys :
  comprehension (preview_entry mark l) idx st = (Return ys, st') ->
  Forall2 (entry_of mark l) idx ys.
Proof.
  revert ys. induction idx as [| i idx IH]; intros ys.
  - cbn. unfold ret. intros [= <- _]. constructor.
  - rewrite comprehension_cons, preview_entry_run.
    destruct (getitem l i) as [x |] eqn:Hx; [| done].
    destruct (comprehension (preview_entry mark l) idx st) as [[ys' |] st1]
      eqn:Hrest; [| done].
    intros [= <- <-]. constructor; [by exists x | by apply IH].
Qed.

(** The parts of the preview, as lines 107-126 build them. *)
Lemma preview_parts (lines patch_lines : list pystr) start_line end_line
    (st st' : S) pv :
  preview lines patch_lines start_line end_line st = (Return pv, st') ->
  let new_lines := spliced_lines lines patch_lines start_line end_line in
  let modified_end := start_line + Z.of_nat (length patch_lines) in
  exists before added rest,
    pv = before ++ added ++ rest
    /\ Forall2 (entry_of (lit " ") new_lines)
         (range (start_line - 3) start_line) before
    /\ Forall2 (entry_of (lit "+") new_lines)
         (range start_line modified_end) added
    /\ if end_line <=? modified_end
       then Forall2 (entry_of (lit " ") new_lines)
              (range modified_end (modified_end + 3)) rest
       else exists removed after,
              rest = removed ++ after
              /\ Forall2 (entry_of (lit "-") lines)
                   (range modified_end end_line) removed
              /\ Forall2 (entry_of (lit " ") lines)
                   (range end_line (end_line + 3)) after.
Proof.
  unfold preview. cbv zeta. intros Hrun.
  apply bind_Return in Hrun as (before & st1 & Hb & Hrun).
  apply bind_Return in Hrun as (added & st2 & Ha & Hrun).
  apply bind_Return in Hrun as (rest & st3 & Hr & Hrun).
  unfold ret in Hrun. injection Hrun as <- _.
  exists before, added, rest. split; [done |].
  split; [by eapply comprehension_entry_Forall2 |].
  split; [by eapply comprehension_entry_Forall2 |].
  destruct (end_line <=? start_line + Z.of_nat (length patch_lines)).
  - by eapply comprehension_entry_Forall2.
  - apply bind_Return in Hr as (removed & st4 & Hrm & Hr).
    apply bind_Return in Hr as (after & st5 & Haf & Hr).
    unfold ret in Hr. injection Hr as <- _.
    exists removed, after. split; [done |].
    split; by eapply comprehension_entry_Forall2.
Qed.

End PreviewContents.

(** The third text that a returning patcher prints is the preview. *)
Lemma patcher_prints_preview module source start_line end_line patch out r out' :
  patcher module (Some source) start_line end_line patch out = (Return r, out') ->
  exists pv,
    preview (splitlines source) (splitlines patch) start_line end_line out
    = (Return pv, out)
    /\ out' = out ++ [reminder module; headline start_line end_line;
                      join [nl] pv].
Proof.
  rewrite patcher_unfold. intros Hrun.
  destruct (preview_ok_dec (splitlines source) (splitlines patch)
              start_line end_line) as [Hok | Hbad].
  - destruct (preview_returns _ _ _ _ out Hok) as [pv Hpv].
    rewrite Hpv in Hrun. injection Hrun as _ <-. by exists pv.
  - by rewrite preview_raises in Hrun.
Qed.

Lemma entry_lookup mark (l : list pystr) (a b : Z) ys (k : nat) x :
  Forall2 (entry_of mark l) (range a b) ys ->
  Z.of_nat k < b - a ->
  getitem l (a + Z.of_nat k) = Return x ->
  ys !! k = Some (format_width3 (a + Z.of_nat k + 1) ++ mark ++ x).
Proof.
  intros Hall Hk Hx.
  destruct (Forall2_lookup_l _ _ _ k _ Hall (range_lookup a b k Hk))
    as (y & Hy & x' & Hx' & ->).
  rewrite Hy. congruence.
Qed.

(** The preview of a call in range, in its three parts. *)
Lemma patcher_preview_in_range module source start_line end_line patch out :
  0 <= start_line <= end_line ->
  end_line + 3 <= Z.of_nat (length (splitlines source)) ->
  let lines := splitlines source in
  let patch_lines := splitlines patch in
  let new_lines := spliced_lines lines patch_lines start_line end_line in
  let modified_end := start_line + Z.of_nat (length patch_lines) in
  exists before added rest,
    (patcher module (Some source) start_line end_line patch out).2
    = out ++ [reminder module; headline start_line end_line;
              join [nl] (before ++ added ++ rest)]
    /\ length before = 3%nat
    /\ length added = length patch_lines
    /\ Forall2 (entry_of (lit " ") new_lines)
         (range (start_line - 3) start_line) before
    /\ Forall2 (entry_of (lit "+") new_lines)
         (range start_line modified_end) added
    /\ if end_line <=? modified_end
       then Forall2 (entry_of (lit " ") new_lines)
              (range modified_end (modified_end + 3)) rest
       else exists removed after,
              rest = removed ++ after
              /\ Forall2 (entry_of (lit "-") lines)
                   (range modified_end end_line) removed
              /\ Forall2 (entry_of (lit " ") lines)
                   (range end_line (end_line + 3)) after.
Proof.
  intros Hse Hn. cbv zeta.
  destruct (patcher_in_range_returns module source start_line end_line patch
              out Hse Hn) as [pv0 Hrun].
  destruct (patcher_prints_preview _ _ _ _ _ _ _ _ Hrun) as (pv & Hpv & Hout).
  destruct (preview_parts _ _ _ _ _ _ _ Hpv)
    as (before & added & rest & -> & Hb & Ha & Hr).
  exists before, added, rest. rewrite Hrun. cbn [snd]. split; [done |].
  split; [| split; [| done]].
  - apply Forall2_length in Hb. rewrite range_length in Hb. lia.
  - apply Forall2_length in Ha. rewrite range_length in Ha. lia.
Qed.

(** The spliced lines of a call in range, position by position. *)
Lemma spliced_lines_lookup (lines patch_lines : list pystr) start_line end_line
    (i : nat) :
  0 <= start_line <= end_line ->
  end_line <= Z.of_nat (length lines) ->
  let s := Z.to_nat start_line in
  let p := length patch_lines in
  spliced_lines lines patch_lines start_line end_line !! i
  = if decide (i < s)%nat then lines !! i
    else if decide (i < s + p)%nat then patch_lines !! (i - s)%nat
    else lines !! (i - (s + p) + Z.to_nat end_line)%nat.
Proof.
  intros Hse Hn. cbv zeta. unfold spliced_lines.
  rewrite slice_to_in_range, slice_from_in_range by lia.
  assert (Htake : length (take (Z.to_nat start_line) lines)
                  = Z.to_nat start_line) by (rewrite length_take; lia).
  destruct (decide (i < Z.to_nat start_line)%nat).
  - rewrite lookup_app_l by lia. by rewrite lookup_take_lt by lia.
  - rewrite lookup_app_r by lia. rewrite Htake.
    destruct (decide (i < Z.to_nat start_line + length patch_lines)%nat).
    + by rewrite lookup_app_l by lia.
    + rewrite lookup_app_r by lia. rewrite lookup_drop. f_equal. lia.
Qed.

(** X7. The preview of a call in range with three lines to spare lists
    three context entries, then every line of the patch marked [+] and
    numbered with its 1-based position in the new text; when more lines
    are replaced than the patch has, it then lists, marked [-], the source
    lines from the end of the patch to [end_line], not the first replaced
    ones; and it ends with three context entries. *)
Theorem X7_preview_marks_patch_lines module source start_line end_line patch
    out :
  0 <= start_line <= end_line ->
  end_line + 3 <= Z.of_nat (length (splitlines source)) ->
  let p := length (splitlines patch) in
  let modified_end := start_line + Z.of_nat p in
  exists pv,
    (patcher module (Some source) start_line end_line patch out).2
    = out ++ [reminder module; headline start_line end_line; join [nl] pv]
    /\ length pv
       = (3 + p + (if (end_line <=? modified_end)%Z then 3
                   else Z.to_nat (end_line - modified_end) + 3))%nat
    /\ (forall (k : nat) x,
          splitlines patch !! k = Some x ->
          pv !! (3 + k)%nat
          = Some (format_width3 (start_line + Z.of_nat k + 1) ++ lit "+" ++ x))
    /\ (forall (j : nat) x,
          modified_end + Z.of_nat j < end_line ->
          splitlines source !! Z.to_nat (modified_end + Z.of_nat j) = Some x ->
          pv !! (3 + p + j)%nat
          = Some (format_width3 (modified_end + Z.of_nat j + 1) ++ lit "-"
                  ++ x)).
Proof.
  intros Hse Hn. cbv zeta.
  destruct (patcher_preview_in_range module source start_line end_line patch
              out Hse Hn)
    as (before & added & rest & Hout & Hlb & Hla & Hb & Ha & Hr).
  exists (before ++ added ++ rest). split; [done |].
  split; [| split].
  - rewrite !length_app, Hlb, Hla.
    destruct (end_line <=? start_line + Z.of_nat (length (splitlines patch))).
    + apply Forall2_length in Hr. rewrite range_length in Hr. lia.
    + destruct Hr as (removed & after & -> & Hrm & Haf).
      apply Forall2_length in Hrm, Haf. rewrite range_length in Hrm, Haf.
      rewrite length_app. lia.
  - intros k x Hk. pose proof (lookup_lt_Some _ _ _ Hk) as Hlt.
    rewrite lookup_app_r by lia. rewrite Hlb.
    replace (3 + k - 3)%nat with k by lia.
    rewrite lookup_app_l by lia.
    eapply entry_lookup; [exact Ha | lia |].
    apply getitem_nonneg; [lia |].
    rewrite spliced_lines_lookup by lia. cbv zeta.
    destruct (decide _); [lia |]. destruct (decide _); [| lia].
    rewrite <- Hk. f_equal. lia.
  - intros j x Hj Hx.
    rewrite lookup_app_r by lia. rewrite Hlb.
    rewrite lookup_app_r by lia. rewrite Hla.
    replace (3 + length (splitlines patch) + j - 3
             - length (splitlines patch))%nat with j by lia.
    destruct (Z.leb_spec end_line
                (start_line + Z.of_nat (length (splitlines patch))));
      [lia |].
    destruct Hr as (removed & after & -> & Hrm & Haf).
    assert (j < length removed)%nat.
    { apply Forall2_length in Hrm. rewrite range_length in Hrm. lia. }
    rewrite lookup_app_l by lia.
    eapply entry_lookup; [exact Hrm | lia |].
    apply getitem_nonneg; [lia | done].
Qed.

(** X8. The three context entries before the patch, for a call in range
    with three lines to spare: entry [j] shows index [start_line - 3 + j]
    of the new text. When that index is negative, that is when the user's
    start line is 1, 2 or 3, the entry is numbered 0 or below and shows a
    line counted from the end of the new text. *)
Theorem X8_preview_context_before module source start_line end_line patch out :
  0 <= start_line <= end_line ->
  end_line + 3 <= Z.of_nat (length (splitlines source)) ->
  let new_lines :=
    spliced_lines (splitlines source) (splitlines patch) start_line end_line in
  exists pv,
    (patcher module (Some source) start_line end_line patch out).2
    = out ++ [reminder module; headline start_line end_line; join [nl] pv]
    /\ forall (j : nat) x, (j < 3)%nat ->
         let i := start_line - 3 + Z.of_nat j in
         (0 <= i -> splitlines source !! Z.to_nat i = Some x ->
          pv !! j = Some (format_width3 (i + 1) ++ lit " " ++ x))
         /\ (i < 0 ->
             new_lines !! Z.to_nat (i + Z.of_nat (length new_lines)) = Some x ->
             pv !! j = Some (format_width3 (i + 1) ++ lit " " ++ x)).
Proof.
  intros Hse Hn. cbv zeta.
  destruct (patcher_preview_in_range module source start_line end_line patch
              out Hse Hn)
    as (before & added & rest & Hout & Hlb & Hla & Hb & Ha & Hr).
  exists (before ++ added ++ rest). split; [done |].
  intros j x Hj.
  assert (Hlen : (3 <= length (spliced_lines (splitlines source)
                                 (splitlines patch) start_line end_line))%nat).
  { rewrite spliced_lines_length, slice_from_in_range, length_drop by lia.
    lia. }
  split; intros Hi Hx; rewrite lookup_app_l by lia;
    (eapply entry_lookup; [exact Hb | lia |]).
  - apply getitem_nonneg; [lia |].
    rewrite spliced_lines_lookup by lia. cbv zeta.
    by destruct (decide _); [| lia].
  - apply getitem_negative; [lia | lia | done].
Qed.

(** X9. The three context entries after the patch, for a call in range
    with three lines to spare, are the three source lines from [end_line]
    on. They are numbered by their position in the new text when the patch
    has at least as many lines as it replaces, and by their position in the
    source otherwise. *)
Theorem X9_preview_context_after module source start_line end_line patch out :
  0 <= start_line <= end_line ->
  end_line + 3 <= Z.of_nat (length (splitlines source)) ->
  let p := length (splitlines patch) in
  let modified_end := start_line + Z.of_nat p in
  exists pv,
    (patcher module (Some source) start_line end_line patch out).2
    = out ++ [reminder module; headline start_line end_line; join [nl] pv]
    /\ forall (j : nat) x, (j < 3)%nat ->
         splitlines source !! Z.to_nat (end_line + Z.of_nat j) = Some x ->
         if end_line <=? modified_end
         then pv !! (3 + p + j)%nat
              = Some (format_width3 (modified_end + Z.of_nat j + 1) ++ lit " "
                      ++ x)
         else pv !! (3 + p + Z.to_nat (end_line - modified_end) + j)%nat
              = Some (format_width3 (end_line + Z.of_nat j + 1) ++ lit " "
                      ++ x).
Proof.
  intros Hse Hn. cbv zeta.
  destruct (patcher_preview_in_range module source start_line end_line patch
              out Hse Hn)
    as (before & added & rest & Hout & Hlb & Hla & Hb & Ha & Hr).
  exists (before ++ added ++ rest). split; [done |].
  intros j x Hj Hx.
  destruct (Z.leb_spec end_line
              (start_line + Z.of_nat (length (splitlines patch)))).
  - rewrite lookup_app_r by lia. rewrite Hlb.
    rewrite lookup_app_r by lia. rewrite Hla.
    replace (3 + length (splitlines patch) + j - 3
             - length (splitlines patch))%nat with j by lia.
    eapply entry_lookup; [exact Hr | lia |].
    apply getitem_nonneg; [lia |].
    rewrite spliced_lines_lookup by lia. cbv zeta.
    destruct (decide _); [lia |]. destruct (decide _); [lia |].
    rewrite <- Hx. f_equal. lia.
  - destruct Hr as (removed & after & -> & Hrm & Haf).
    assert (length removed
            = Z.to_nat (end_line - (start_line
                                    + Z.of_nat (length (splitlines patch))))).
    { apply Forall2_length in Hrm. rewrite range_length in Hrm. lia. }
    rewrite lookup_app_r by lia. rewrite Hlb.
    rewrite lookup_app_r by lia. rewrite Hla.
    rewrite lookup_app_r by lia.
    match goal with |- after !! ?n = _ => replace n with j by lia end.
    eapply entry_lookup; [exact Haf | lia |].
    apply getitem_nonneg; [lia | done].
Qed.

(** ** [modify_and_import]: failures, footprint, invariant *)

Section ExecutorFurther.
Context `{IS : ImportSystem}.

Lemma set_stdout_same (w : world) : set_stdout (stdout w) w = w.
Proof. by destruct w. Qed.

(** X10. A module that is not found: when [find_spec] gives [None],
    [modify_and_import] raises [AttributeError] (from [spec.loader]), not
    an import error; the modification function is not called, and the
    state is what the lookup left, which for a name without a parent
    package is the state before the call. *)
Theorem X10_module_not_found name package f w w1 :
  find_spec name package w = (Return None, w1) ->
  modify_and_import name package f w = (Raise AttributeError, w1)
  /\ (starts_with_dot name = false -> parent_name name = [] -> w1 = w).
Proof.
  intros Hfind. split.
  - rewrite modify_and_import_run. unfold fetch. by rewrite Hfind.
  - intros Hdot Hparent.
    replace w1 with (find_spec name package w).2 by by rewrite Hfind.
    apply find_spec_pure; [done | by right].
Qed.


End ExecutorFurther.

(** ** The body of the magic, past the parser (lines 88-139) *)

Section MagicFurther.
Context `{IS : ImportSystem}.

(** Arguments that pass lines 88-99 reach [modify_and_import] with the
    start line and the end line, the start line standing in for an absent
    end line. *)
Lemma patchimport_checked_valid (args : PatchArgs) cell w :
  1 <= start_line args ->
  (forall e, end_line args = Some e -> start_line args < e) ->
  patchimport_checked args cell w
  = (modify_and_import (module args) None
       (patcher_partial (module args) (start_line args)
          (default (start_line args) (end_line args)) cell) ;;; ret tt) w.
Proof.
  intros Hs He. unfold patchimport_checked.
  destruct (Z.ltb_spec (start_line args) 1); [lia |].
  destruct (end_line args) as [e |]; [| done].
  specialize (He e eq_refl). by destruct (Z.leb_spec e (start_line args)); [lia |].
Qed.

(** X13. The validation of lines 88-99, given parsed arguments, has three
    outcomes: a start line below 1 prints the first diagnostic; an end
    line not above the start line prints the second; in both nothing else
    happens. Otherwise [modify_and_import] is called with the patcher on
    0-based indices [s <= e] that are not negative: [e = s] exactly when
    no end line was given. *)
Theorem X13_validation_outcomes (args : PatchArgs) cell w :
  (start_line args < 1
   /\ patchimport_checked args cell w
      = (Return tt,
         set_stdout (stdout w ++ [lit "Error: start_line must be at least 1"])
           w))
  \/ (1 <= start_line args
      /\ (exists e, end_line args = Some e /\ e <= start_line args)
      /\ patchimport_checked args cell w
         = (Return tt,
            set_stdout
              (stdout w
               ++ [lit "Error: end_line must be greater than start_line"]) w))
  \/ (exists s e,
        0 <= s <= e
        /\ s = start_line args - 1
        /\ (s = e <-> end_line args = None)
        /\ patchimport_checked args cell w
           = (modify_and_import (module args) None
                (fun source =>
                   new_src <- patcher (module args) source s e cell ;;
                   ret (Some new_src)) ;;; ret tt) w).
Proof.
  destruct (Z.lt_ge_cases (start_line args) 1) as [Hlt | Hge].
  - left. split; [done |]. by apply patchimport_checked_start_below_1.
  - right. destruct (end_line args) as [e |] eqn:He.
    + destruct (Z.le_gt_cases e (start_line args)) as [Hle | Hgt].
      * left. split; [done |]. split; [by exists e |].
        by apply patchimport_checked_end_not_above_start with e.
      * right. exists (start_line args - 1), (e - 1).
        split; [lia |]. split; [done |]. split; [split; [lia | done] |].
        rewrite patchimport_checked_valid; [by rewrite He | done |].
        intros e' He'. congruence.
    + right. exists (start_line args - 1), (start_line args - 1).
      split; [lia |]. split; [done |]. split; [done |].
      rewrite patchimport_checked_valid; [by rewrite He | done |].
      intros e' He'. congruence.
Qed.


(** X15. The body of the magic on a patch too close to the end: past the
    validation, on a module that the lookup finds, when fewer than three
    source lines follow the replaced range (the source has fewer than
    [E + 2] lines), the body raises [IndexError] and leaves the state as
    the lookup left it: nothing printed, no module object created, nothing
    registered. For a module that is registered or has no parent package
    that is the state before the call. *)
Theorem X15_magic_body_near_the_end (args : PatchArgs) cell w w1 E sp source :
  1 <= start_line args ->
  (end_line args = None /\ E = start_line args
   \/ end_line args = Some E /\ start_line args < E) ->
  find_spec (module args) None w = (Return (Some sp), w1) ->
  loader_get_source sp (module args) = Return (Some source) ->
  Z.of_nat (length (splitlines source)) < E + 2 ->
  patchimport_checked args cell w = (Raise IndexError, w1)
  /\ (starts_with_dot (module args) = false ->
      is_Some (sys_modules w !! module args)
      \/ parent_name (module args) = [] ->
      w1 = w).
Proof.
  intros Hs HE Hfind Hsource Hn.
  assert (Hw1 : (find_spec (module args) None w).2 = w1) by by rewrite Hfind.
  assert (Hfetch : fetch (module args) None w = Return (sp, Some source))
    by (unfold fetch; rewrite Hfind; cbn [fst]; by rewrite Hsource).
  assert (Hdef : default (start_line args) (end_line args) = E)
    by (destruct HE as [[-> ->] | [-> _]]; done).
  assert (HSE : start_line args <= E) by (destruct HE as [[_ ->] | [_ ?]]; lia).
  split; [| intros; rewrite <- Hw1; by apply find_spec_pure].
  rewrite patchimport_checked_valid;
    [| done | intros e' He'; destruct HE as [[? _] | [? ?]]; congruence].
  rewrite Hdef. unfold bind. rewrite modify_and_import_run, Hfetch.
  cbv zeta. rewrite Hw1. unfold patcher_partial, bind.
  rewrite patcher_short_tail_raises by lia. by rewrite set_stdout_same.
Qed.

(** X16. The body of the magic on a module without source text (the loader
    gives [None]): past the validation, it raises [AttributeError], from
    [source.splitlines()], and leaves the state as the lookup left it,
    which for a module that is registered or has no parent package is the
    state before the call. *)
Theorem X16_magic_body_without_source (args : PatchArgs) cell w w1 sp :
  1 <= start_line args ->
  (forall e, end_line args = Some e -> start_line args < e) ->
  find_spec (module args) None w = (Return (Some sp), w1) ->
  loader_get_source sp (module args) = Return None ->
  patchimport_checked args cell w = (Raise AttributeError, w1)
  /\ (starts_with_dot (module args) = false ->
      is_Some (sys_modules w !! module args)
      \/ parent_name (module args) = [] ->
      w1 = w).
Proof.
  intros Hs He Hfind Hsource.
  assert (Hw1 : (find_spec (module args) None w).2 = w1) by by rewrite Hfind.
  assert (Hfetch : fetch (module args) None w = Return (sp, None))
    by (unfold fetch; rewrite Hfind; cbn [fst]; by rewrite Hsource).
  split; [| intros; rewrite <- Hw1; by apply find_spec_pure].
  rewrite patchimport_checked_valid by done.
  unfold bind. rewrite modify_and_import_run, Hfetch. cbv zeta. rewrite Hw1.
  unfold patcher_partial, patcher, method_splitlines, bind, pure_result.
  by rewrite set_stdout_same.
Qed.

(** X17. A parser that bails out is swallowed: when [argparse] raises
    [SystemExit] (a malformed header, or [-h]), the magic returns [None];
    what the parser printed is kept, and the registry and the module
    objects are unchanged. *)
Theorem X17_parser_exit_is_swallowed line cell argv w out' :
  shlex_split line = Return argv ->
  argparse_positionals argv (stdout w) = (Raise SystemExit, out') ->
  patchimport line cell w = (Return tt, set_stdout out' w).
Proof.
  intros Hsplit Hparse. unfold patchimport, lift_out.
  by rewrite parse_args_run, Hsplit, Hparse.
Qed.

(** X18. What the magic, as written, never does: it never lets
    [SystemExit] out, and, since [parse_args] returns on no header, it
    never changes the registry or a module object; it returns exactly
    when [parse_args] raised [SystemExit], and raises what [parse_args]
    raised otherwise. *)
Theorem X18_magic_footprint line cell w r w' :
  patchimport line cell w = (r, w') ->
  r <> Raise SystemExit
  /\ sys_modules w' = sys_modules w
  /\ heap w' = heap w
  /\ (r = Return tt <-> (parse_args line (stdout w)).1 = Raise SystemExit)
  /\ (forall e, r = Raise e -> (parse_args line (stdout w)).1 = Raise e).
Proof.
  unfold patchimport, lift_out.
  destruct (parse_args line (stdout w)) as [[a | e] out'] eqn:Hp.
  - by apply parse_args_never_returns in Hp.
  - destruct e; intros [= <- <-]; cbn; repeat split; try done;
      intros; congruence.
Qed.

End MagicFurther.

(** ** The further properties at concrete inputs *)

Lemma X1_patcher_returns_witness :
  exists pv,
    patcher (lit "settings") (Some Demo.settings_source) 1 2 (lit "A=patched") []
    = (Return (join [nl] (take (Z.to_nat 1) (splitlines Demo.settings_source)
                          ++ splitlines (lit "A=patched")
                          ++ drop (Z.to_nat 2)
                               (splitlines Demo.settings_source))),
       [] ++ [reminder (lit "settings"); headline 1 2; pv]).
Proof.
  apply (X1_patcher_returns_spliced_text (lit "settings")
           Demo.settings_source 1 2 (lit "A=patched") []);
    [lia | vm_compute; discriminate].
Defined.

Lemma X3_returned_text_lines_witness :
  splitlines Demo.settings_patched
  = slice_to (splitlines Demo.settings_source) 1
      ++ splitlines (lit "A=patched")
      ++ slice_from (splitlines Demo.settings_source) 2.
Proof.
  apply (X3_returned_text_lines (lit "settings") Demo.settings_source 1 2
           (lit "A=patched") [] Demo.settings_patched
           (patcher (lit "settings") (Some Demo.settings_source) 1 2
              (lit "A=patched") []).2);
    [lia | vm_compute; discriminate | vm_compute; reflexivity].
Defined.

Lemma X4_returned_line_positions_witness :
  let s := Z.to_nat 1 in
  let e := Z.to_nat 2 in
  let p := length (splitlines (lit "A=patched")) in
  ((3 < s)%nat ->
   splitlines Demo.settings_patched !! 3%nat
   = splitlines Demo.settings_source !! 3%nat)
  /\ ((s <= 3 < s + p)%nat ->
      splitlines Demo.settings_patched !! 3%nat
      = splitlines (lit "A=patched") !! (3 - s)%nat)
  /\ ((s + p <= 3)%nat ->
      splitlines Demo.settings_patched !! 3%nat
      = splitlines Demo.settings_source !! (3 - (s + p) + e)%nat).
Proof.
  apply (X4_returned_line_positions (lit "settings") Demo.settings_source 1 2
           (lit "A=patched") [] Demo.settings_patched
           (patcher (lit "settings") (Some Demo.settings_source) 1 2
              (lit "A=patched") []).2 3%nat);
    [lia | vm_compute; discriminate | vm_compute; reflexivity].
Defined.

Lemma X5_trailing_newline_witness :
  patcher (lit "settings") (Some (Demo.settings_source ++ [nl])) 1 2
    (lit "A=patched") []
  = patcher (lit "settings") (Some Demo.settings_source) 1 2
      (lit "A=patched") [].
Proof.
  apply (X5_trailing_newline_ignored (lit "settings") Demo.settings_source
           53%N 1 2 (lit "A=patched") []);
    [vm_compute; reflexivity | reflexivity].
Defined.

Lemma X6_empty_cell_witness :
  join [nl] (splitlines Demo.mixed_source)
  = join [nl] (splitlines Demo.mixed_source)
  /\ (list.last (splitlines Demo.mixed_source) <> Some [] ->
      splitlines (join [nl] (splitlines Demo.mixed_source))
      = splitlines Demo.mixed_source).
Proof.
  apply (X6_empty_cell_keeps_lines (lit "m") Demo.mixed_source 1 []
           (join [nl] (splitlines Demo.mixed_source))
           (patcher (lit "m") (Some Demo.mixed_source) 1 1 [] []).2).
  vm_compute; reflexivity.
Defined.

Lemma X7_preview_marks_witness :
  let p := length (splitlines (lit "A=patched")) in
  let modified_end := 1 + Z.of_nat p in
  exists pv,
    (patcher (lit "settings") (Some Demo.settings_source) 1 2
       (lit "A=patched") []).2
    = [] ++ [reminder (lit "settings"); headline 1 2; join [nl] pv]
    /\ length pv
       = (3 + p + (if (2 <=? modified_end)%Z then 3
                   else Z.to_nat (2 - modified_end) + 3))%nat
    /\ (forall (k : nat) x,
          splitlines (lit "A=patched") !! k = Some x ->
          pv !! (3 + k)%nat
          = Some (format_width3 (1 + Z.of_nat k + 1) ++ lit "+" ++ x))
    /\ (forall (j : nat) x,
          modified_end + Z.of_nat j < 2 ->
          splitlines Demo.settings_source
            !! Z.to_nat (modified_end + Z.of_nat j) = Some x ->
          pv !! (3 + p + j)%nat
          = Some (format_width3 (modified_end + Z.of_nat j + 1) ++ lit "-"
                  ++ x)).
Proof.
  apply (X7_preview_marks_patch_lines (lit "settings") Demo.settings_source
           1 2 (lit "A=patched") []);
    [lia | vm_compute; discriminate].
Defined.

Lemma X8_preview_context_before_witness :
  let new_lines :=
    spliced_lines (splitlines Demo.settings_source)
      (splitlines (lit "A=patched")) 1 2 in
  exists pv,
    (patcher (lit "settings") (Some Demo.settings_source) 1 2
       (lit "A=patched") []).2
    = [] ++ [reminder (lit "settings"); headline 1 2; join [nl] pv]
    /\ forall (j : nat) x, (j < 3)%nat ->
         let i := 1 - 3 + Z.of_nat j in
         (0 <= i -> splitlines Demo.settings_source !! Z.to_nat i = Some x ->
          pv !! j = Some (format_width3 (i + 1) ++ lit " " ++ x))
         /\ (i < 0 ->
             new_lines !! Z.to_nat (i + Z.of_nat (length new_lines)) = Some x ->
             pv !! j = Some (format_width3 (i + 1) ++ lit " " ++ x)).
Proof.
  apply (X8_preview_context_before (lit "settings") Demo.settings_source
           1 2 (lit "A=patched") []);
    [lia | vm_compute; discriminate].
Defined.

Lemma X9_preview_context_after_witness :
  let p := length (splitlines (lit "A=patched")) in
  let modified_end := 1 + Z.of_nat p in
  exists pv,
    (patcher (lit "settings") (Some Demo.settings_source) 1 2
       (lit "A=patched") []).2
    = [] ++ [reminder (lit "settings"); headline 1 2; join [nl] pv]
    /\ forall (j : nat) x, (j < 3)%nat ->
         splitlines Demo.settings_source !! Z.to_nat (2 + Z.of_nat j) = Some x ->
         if 2 <=? modified_end
         then pv !! (3 + p + j)%nat
              = Some (format_width3 (modified_end + Z.of_nat j + 1) ++ lit " "
                      ++ x)
         else pv !! (3 + p + Z.to_nat (2 - modified_end) + j)%nat
              = Some (format_width3 (2 + Z.of_nat j + 1) ++ lit " " ++ x).
Proof.
  apply (X9_preview_context_after (lit "settings") Demo.settings_source
           1 2 (lit "A=patched") []);
    [lia | vm_compute; discriminate].
Defined.

Lemma X10_module_not_found_witness :
  modify_and_import (IS := Demo.demo_imports) (lit "nothing") None
    Demo.replace_constant Demo.imported
  = (Raise AttributeError, Demo.imported)
  /\ (starts_with_dot (lit "nothing") = false ->
      parent_name (lit "nothing") = [] -> Demo.imported = Demo.imported).
Proof.
  apply (X10_module_not_found (IS := Demo.demo_imports) (lit "nothing") None
           Demo.replace_constant Demo.imported Demo.imported).
  apply find_spec_pure_eq;
    [reflexivity | right; reflexivity | vm_compute; reflexivity].
Defined.



Lemma X15_magic_body_near_the_end_witness :
  patchimport_checked (IS := Demo.demo_imports) Demo.letters_args (lit "X")
    Demo.start
  = (Raise IndexError, Demo.start)
  /\ (starts_with_dot (module Demo.letters_args) = false ->
      is_Some (sys_modules Demo.start !! module Demo.letters_args)
      \/ parent_name (module Demo.letters_args) = [] ->
      Demo.start = Demo.start).
Proof.
  eapply (X15_magic_body_near_the_end (IS := Demo.demo_imports)
            Demo.letters_args (lit "X") Demo.start Demo.start 4);
    [vm_compute; discriminate
    | right; split; [reflexivity | reflexivity]
    | apply find_spec_pure_eq;
        [reflexivity | right; reflexivity | vm_compute; reflexivity]
    | vm_compute; reflexivity
    | vm_compute; reflexivity].
Defined.

Lemma X16_magic_body_without_source_witness :
  patchimport_checked (IS := Demo.demo_imports_no_source) Demo.settings_args
    (lit "A=patched") Demo.start_no_source
  = (Raise AttributeError, Demo.start_no_source)
  /\ (starts_with_dot (module Demo.settings_args) = false ->
      is_Some (sys_modules Demo.start_no_source !! module Demo.settings_args)
      \/ parent_name (module Demo.settings_args) = [] ->
      Demo.start_no_source = Demo.start_no_source).
Proof.
  eapply (X16_magic_body_without_source (IS := Demo.demo_imports_no_source)
            Demo.settings_args (lit "A=patched") Demo.start_no_source
            Demo.start_no_source);
    [vm_compute; discriminate
    | intros e [= <-]; reflexivity
    | apply find_spec_pure_eq;
        [reflexivity | right; reflexivity | vm_compute; reflexivity]
    | vm_compute; reflexivity].
Defined.

Lemma X17_parser_exit_witness :
  patchimport (IS := Demo.demo_imports) (lit "settings") (lit "A=patched")
    Demo.start
  = (Return tt, set_stdout [] Demo.start).
Proof.
  eapply (X17_parser_exit_is_swallowed (IS := Demo.demo_imports)
            (lit "settings") (lit "A=patched"));
    [vm_compute; reflexivity | vm_compute; reflexivity].
Defined.

Lemma X18_magic_footprint_witness :
  (patchimport (IS := Demo.demo_imports) (lit "settings 2 3")
     (lit "A=patched") Demo.start).1 <> Raise SystemExit
  /\ sys_modules (patchimport (IS := Demo.demo_imports) (lit "settings 2 3")
                    (lit "A=patched") Demo.start).2
     = sys_modules Demo.start
  /\ heap (patchimport (IS := Demo.demo_imports) (lit "settings 2 3")
             (lit "A=patched") Demo.start).2
     = heap Demo.start
  /\ ((patchimport (IS := Demo.demo_imports) (lit "settings 2 3")
         (lit "A=patched") Demo.start).1 = Return tt
      <-> (parse_args (RT := Demo.demo_runtime) (lit "settings 2 3")
             (stdout Demo.start)).1 = Raise SystemExit)
  /\ (forall e,
        (patchimport (IS := Demo.demo_imports) (lit "settings 2 3")
           (lit "A=patched") Demo.start).1 = Raise e ->
        (parse_args (RT := Demo.demo_runtime) (lit "settings 2 3")
           (stdout Demo.start)).1 = Raise e).
Proof.
  apply (X18_magic_footprint (IS := Demo.demo_imports) (lit "settings 2 3")
           (lit "A=patched") Demo.start).
  apply surjective_pairing.
Defined.
